(** * gst-rtsp-launch: the launcher's command-line core, verified

    A shallow embedding of [src/gst-rtsp-launch.c]: the transport-profile
    parser [parseProfile] and the loop of [main] that drives it, the
    retransmission-time conversion, the option table with the storage its
    entries point to, the start-up sequence of [main] as a log of library
    calls, the session clean-up callback [timeout] and the handler
    [media_constructed].

    C strings are lists of characters read through [deref], which yields
    the terminating NUL at and past the end of the list; a pointer into a
    string is an offset into it.  The functions of the C library and of
    GLib and GStreamer that the program calls are modelled next to their
    first use, each from its documented behaviour in the "C" locale. *)

From Stdlib Require Import ZArith Bool Ascii String DecimalString List Lia.
Import ListNotations.

Open Scope Z_scope.

(** ** C strings and <ctype.h> *)

Definition cstring := list ascii.

(** A string literal of the source. *)
Definition lit (s : string) : cstring := list_ascii_of_string s.

Definition NUL : ascii := Ascii.zero.

(** [*(s + p)]: the character at offset [p]; the terminator at the end. *)
Definition deref (s : cstring) (p : nat) : ascii := nth p s NUL.

(** [s + p] as a string of its own. *)
Definition at_offset (s : cstring) (p : nat) : cstring := skipn p s.

Definition code (c : ascii) : Z := Z.of_N (N_of_ascii c).

Definition between (lo hi : Z) (c : ascii) : bool :=
  (lo <=? code c) && (code c <=? hi).

Definition isdigit (c : ascii) : bool := between 48 57 c.
Definition isupper (c : ascii) : bool := between 65 90 c.
Definition islower (c : ascii) : bool := between 97 122 c.
Definition isalpha (c : ascii) : bool := isupper c || islower c.
Definition isalnum (c : ascii) : bool := isalpha c || isdigit c.
(** space, and \t \n \v \f \r *)
Definition isspace (c : ascii) : bool := (code c =? 32) || between 9 13 c.

Definition toupper (c : ascii) : ascii :=
  if islower c then ascii_of_N (Z.to_N (code c - 32)) else c.
Definition tolower (c : ascii) : ascii :=
  if isupper c then ascii_of_N (Z.to_N (code c + 32)) else c.

Definition is_nul (c : ascii) : bool := Ascii.eqb c NUL.

(** [strncasecmp s1 s2 n]: the difference of the first pair of characters
    that differ when both are lowered, looking at no more than [n]
    characters and at nothing behind a terminator. *)
Fixpoint strncasecmp (s1 s2 : cstring) (n : nat) : Z :=
  match n with
  | O => 0
  | S n' =>
      let c1 := tolower (deref s1 0) in
      let c2 := tolower (deref s2 0) in
      if Ascii.eqb c1 c2
      then if is_nul c1 then 0 else strncasecmp (tl s1) (tl s2) n'
      else code c1 - code c2
  end.

(** ** Transport profiles *)

(** Modelled from the spec: the enumeration [GstRTSPProfile] is declared in
    GStreamer's header gst/rtsp/gstrtspdefs.h, which is not part of this
    repository.  The spec describes each of the four identifiers as a
    single bit flag; the values are the header's, bits 0 to 3. *)
Definition GST_RTSP_PROFILE_AVP : Z := Z.shiftl 1 0.
Definition GST_RTSP_PROFILE_SAVP : Z := Z.shiftl 1 1.
Definition GST_RTSP_PROFILE_AVPF : Z := Z.shiftl 1 2.
Definition GST_RTSP_PROFILE_SAVPF : Z := Z.shiftl 1 3.

(** [parseProfile base result] on the string [s]: the offset of the first
    character that is not part of the profile, and [*result] afterwards. *)
Definition parseProfile (s : cstring) (base : nat) (result : Z) : nat * Z :=
  let cursor := base in
  let cursor :=
    if Ascii.eqb (toupper (deref s base)) "S" then S cursor else cursor in
  if negb (strncasecmp (at_offset s cursor) (lit "AVP") 3 =? 0)
  then (cursor, result)
  else
    if Ascii.eqb (toupper (deref s (cursor + 3))) "F"
    then
      (* cursor++ == base ? AVPF : SAVPF *)
      let profile :=
        if Nat.eqb cursor base
        then GST_RTSP_PROFILE_AVPF else GST_RTSP_PROFILE_SAVPF in
      let cursor := S cursor in
      (cursor + 3, Z.lor result profile)%nat
    else
      let profile :=
        if Nat.eqb cursor base
        then GST_RTSP_PROFILE_AVP else GST_RTSP_PROFILE_SAVP in
      (cursor + 3, Z.lor result profile)%nat.

(** The outcome of the [while] loop of [main]: the mask handed to
    the factory, or the jump to [badProfiles].  [OutOfFuel] is the model's
    own and is never the outcome of [parse_profiles]. *)
Inductive profiles_outcome :=
| Mask (mask : Z)
| BadProfiles
| OutOfFuel.

Fixpoint profiles_loop (fuel : nat) (s : cstring) (cursor : nat) (mask : Z)
  : profiles_outcome :=
  match fuel with
  | O => OutOfFuel
  | S fuel' =>
      if is_nul (deref s cursor) then Mask mask
      else
        let '(cursor, profile) := parseProfile s cursor 0 in
        if profile =? 0 then BadProfiles
        else
          let mask := Z.lor mask profile in
          if is_nul (deref s cursor) then Mask mask
          else if isalnum (deref s cursor) then BadProfiles
          else profiles_loop fuel' s (S cursor) mask
  end.

(** The body of [if (profiles) { ... }] up to the call that applies the
    mask: [mask = 0], [cursor = profiles], then the loop.  Every pass
    through the loop moves the cursor forward, so one unit of fuel per
    character and one more is enough. *)
Definition parse_profiles (profiles : cstring) : profiles_outcome :=
  profiles_loop (S (length profiles)) profiles 0 0.

(** ** The retransmission time *)

Definition ULLONG_MAX : Z := 2 ^ 64 - 1.

(** The value of a character as a digit, in bases up to 36. *)
Definition digit_value (c : ascii) : option Z :=
  if isdigit c then Some (code c - 48)
  else if isalpha c then Some (code (toupper c) - 65 + 10)
  else None.

(** The digits of a numeral in [base] at the head of [s]: their value on
    top of [acc], and how many there are. *)
Fixpoint digits (base : Z) (s : cstring) (acc : Z) (n : nat) : Z * nat :=
  match s with
  | [] => (acc, n)
  | c :: s' =>
      match digit_value c with
      | Some d =>
          if d <? base then digits base s' (acc * base + d) (S n)
          else (acc, n)
      | None => (acc, n)
      end
  end.

Fixpoint count_space (s : cstring) : nat :=
  match s with
  | c :: s' => if isspace c then S (count_space s') else O
  | [] => O
  end.

(** [strtoull nptr &end base] of the C library (ISO C 7.22.1.4, as of C17
    and as glibc has it): the value returned and the offset stored in
    [end].  White space is skipped, one
    sign is taken, base 0 and base 16 take a 0x prefix, base 0 reads a
    leading 0 as octal and anything else as decimal; then the longest run
    of digits of the base is the numeral.  Without a digit nothing is
    converted and [end] is [nptr], except that after a bare 0x the zero
    counts as the numeral.  A value that does not fit is [ULLONG_MAX]; a
    minus sign negates in the unsigned type. *)
Definition strtoull (nptr : cstring) (base : Z) : Z * nat :=
  let i := count_space nptr in
  let negative := Ascii.eqb (deref nptr i) "-" in
  let i := if negative || Ascii.eqb (deref nptr i) "+" then S i else i in
  let prefixed :=
    Ascii.eqb (deref nptr i) "0"
    && ((base =? 0) || (base =? 16))
    && Ascii.eqb (toupper (deref nptr (S i))) "X" in
  let base :=
    if prefixed then 16
    else if base =? 0
         then if Ascii.eqb (deref nptr i) "0" then 8 else 10
         else base in
  let save := if prefixed then S (S i) else i in
  let '(v, n) := digits base (at_offset nptr save) 0 0 in
  match n with
  | O => (0, if prefixed then S i else O)
  | _ =>
      (if ULLONG_MAX <? v then ULLONG_MAX
       else if negative then (2 ^ 64 - v) mod 2 ^ 64
       else v,
       (save + n)%nat)
  end.

(** [retransMs], or the branch that returns 4:
    [if ( *end || end == retransmitTime )]. *)
Definition parse_retransmitTime (retransmitTime : cstring) : option Z :=
  let '(retransMs, end_) := strtoull retransmitTime 0 in
  if negb (is_nul (deref retransmitTime end_)) || Nat.eqb end_ 0
  then None
  else Some retransMs.

(** Modelled from the spec: [GST_MSECOND] is a macro of GStreamer's
    gst/gstclock.h, which is not part of this repository; the spec calls it
    the fixed multiplier from milliseconds to the engine's time unit.  The
    unit is the nanosecond and the macro has the type [guint64]. *)
Definition GST_MSECOND : Z := 1000000.

(** [retransMs * GST_MSECOND] in [guint64]. *)
Definition retransmission_time (retransMs : Z) : Z :=
  (retransMs * GST_MSECOND) mod 2 ^ 64.

(** ** The option variables and the option table *)

Definition nl : cstring := ["010"%char].

Definition DEFAULT_RTSP_PORT : cstring := lit "8554".
Definition DEFAULT_ENDPOINT : cstring := lit "video".

(** The file-scope variables.  A [char *] that is NULL is [None]. *)
Record globals := {
  port : cstring;
  mount : cstring;
  retransmitTime : option cstring;
  profiles : option cstring;
  disable_rtcp : bool
}.

Definition initial_globals : globals := {|
  port := DEFAULT_RTSP_PORT;
  mount := lit "/" ++ DEFAULT_ENDPOINT;
  retransmitTime := None;
  profiles := None;
  disable_rtcp := false
|}.

Definition set_port (v : cstring) (g : globals) : globals :=
  {| port := v; mount := mount g; retransmitTime := retransmitTime g;
     profiles := profiles g; disable_rtcp := disable_rtcp g |}.
Definition set_retransmitTime (v : cstring) (g : globals) : globals :=
  {| port := port g; mount := mount g; retransmitTime := Some v;
     profiles := profiles g; disable_rtcp := disable_rtcp g |}.
Definition set_profiles (v : cstring) (g : globals) : globals :=
  {| port := port g; mount := mount g; retransmitTime := retransmitTime g;
     profiles := Some v; disable_rtcp := disable_rtcp g |}.
Definition set_disable_rtcp (b : bool) (g : globals) : globals :=
  {| port := port g; mount := mount g; retransmitTime := retransmitTime g;
     profiles := profiles g; disable_rtcp := b |}.

(** The [arg_data] column of the table: where an entry stores its value.
    [addr_mount_plus_1] is the expression [&mount+1] of the "endpoint"
    entry: the address of the variable [mount] plus one, which is the
    pointer-sized slot behind [mount] and not [mount] itself. *)
Inductive string_ptr :=
| addr_port
| addr_mount_plus_1
| addr_profiles
| addr_retransmitTime.

Inductive flag_ptr :=
| addr_disable_rtcp.

(** The [arg] column together with [arg_data]. *)
Inductive GOptionArg :=
| G_OPTION_ARG_NONE (arg_data : flag_ptr)
| G_OPTION_ARG_STRING (arg_data : string_ptr).

Record GOptionEntry := entry {
  long_name : cstring;
  short_name : ascii;
  arg : GOptionArg;
  description : cstring;
  arg_description : cstring
}.

(** One option as it stands on the command line, whichever way it is
    written there: [--name value], [--name=value], [--name]; [-c value],
    [-c]. *)
Inductive option_use :=
| long_option (name : cstring) (value : option cstring)
| short_option (c : ascii) (value : option cstring).

(** The command line: the options in their order, and what is left of
    [argv] behind [argv[0]] once GLib has taken the options out. *)
Record command_line := {
  uses : list option_use;
  rest : list cstring
}.

(** What GStreamer's option group, which [main] adds to the option
    context, makes of a long option whose name begins with "gst-".  The
    options of that group are GStreamer's and not this repository's. *)
Inductive group_answer :=
| group_takes      (* parsed; no variable of this program is touched *)
| group_refuses    (* a parse error: no such option, or a bad value *)
| group_exits.     (* printed and [exit (0)], as for [--gst-version] *)

(** What the libraries answer during the run: the message of a GLib parse
    error, the source id [gst_rtsp_server_attach] returns (0 on failure),
    whether [g_main_loop_run] ever returns, what GStreamer's option group
    makes of an option of its own, and what is printed on standard output
    by the library that ends the process during option parsing. *)
Record environment := {
  error_message : cstring;
  attach_id : Z;
  loop_quits : bool;
  gst_option : cstring -> option cstring -> group_answer;
  exit_output : cstring
}.

Fixpoint cstring_eqb (a b : cstring) : bool :=
  match a, b with
  | [], [] => true
  | x :: a', y :: b' => Ascii.eqb x y && cstring_eqb a' b'
  | _, _ => false
  end.

(** GLib's own options, which an option context has unless they are
    switched off, and this one has: [--help], [--help-all], [--help-gst]
    for the one group that is added, [-h] and [-?].  GLib compares the
    whole word, so that [--help=value] is none of them. *)
Definition asks_help (u : option_use) : bool :=
  match u with
  | long_option name None =>
      cstring_eqb name (lit "help") || cstring_eqb name (lit "help-all")
      || cstring_eqb name (lit "help-gst")
  | long_option _ (Some _) => false
  | short_option c _ => Ascii.eqb c "h" || Ascii.eqb c "?"
  end.

(** The names of GStreamer's options begin with "gst-". *)
Definition gst_prefixed (name : cstring) : bool :=
  cstring_eqb (firstn 4 name) (lit "gst-").

(** How [g_option_context_parse] ends: it returns TRUE with the options
    stored, it returns FALSE with the error set, or it does not return
    because GLib or GStreamer has printed what was asked for and called
    [exit (0)]. *)
Inductive parse_result :=
| Parsed (g : globals)
| Failed
| Exited.

(** ** Library calls *)

Inductive callback :=
| cb_timeout
| cb_media_constructed.

Inductive event :=
| g_print (text : cstring)
| g_printerr (text : cstring)
| g_option_context_new
| g_option_context_add_main_entries
| g_option_context_add_group
| ev_g_option_context_parse (ok : bool)
| g_option_context_free
| g_clear_error
| g_main_loop_new
| gst_rtsp_server_new
| g_object_set_service (service : cstring)
| gst_rtsp_server_get_mount_points
| gst_rtsp_media_factory_new
| gst_rtsp_media_factory_set_profiles (mask : Z)
| gst_rtsp_media_factory_set_retransmission_time (time : Z)
| gst_rtsp_media_factory_set_enable_rtcp (enable : bool)
| gst_rtsp_media_factory_set_launch (launch : cstring)
| gst_rtsp_media_factory_set_shared (shared : bool)
| g_signal_connect (signal : cstring) (handler : callback)
| gst_rtsp_mount_points_add_factory (path : cstring)
| g_object_unref_mounts
| ev_gst_rtsp_server_attach (id : Z)
| g_timeout_add_seconds (interval : Z) (function : callback)
| ev_g_main_loop_run
| gst_rtsp_server_get_session_pool
| gst_rtsp_session_pool_cleanup
| g_object_unref_pool
| gst_rtsp_media_set_do_retransmission (enable : bool)
| ev_exit (status : Z)
| ev_gst_rtsp_media_n_streams
| ev_gst_rtsp_media_get_stream (idx : Z)
| ev_gst_rtsp_stream_is_sender
| ev_gst_rtsp_stream_get_retransmission_time.

(** How a run of [main] ends. *)
Inductive outcome :=
| Returns (code : Z)
| Exits (status : Z)   (* [exit] inside a library call: [main] never returns *)
| Serves        (* inside [g_main_loop_run], until the process is killed *)
| Unfinished.   (* the model's fuel ran out *)

Inductive step (A : Type) :=
| Go (a : A)
| Halt (o : outcome).
Arguments Go {A} a.
Arguments Halt {A} o.

(** A statement: it extends the log of calls (latest first) and either
    goes on with a value or leaves [main]. *)
Definition M (A : Type) : Type := list event -> list event * step A.

Definition ret {A} (a : A) : M A := fun log => (log, Go a).

Definition bind {A B} (m : M A) (f : A -> M B) : M B :=
  fun log =>
    match m log with
    | (log', Go a) => f a log'
    | (log', Halt o) => (log', Halt o)
    end.

Definition call (e : event) : M unit := fun log => (e :: log, Go tt).

Definition return_ {A} (code : Z) : M A := fun log => (log, Halt (Returns code)).

Definition halt {A} (o : outcome) : M A := fun log => (log, Halt o).

Declare Scope prog_scope.
Delimit Scope prog_scope with prog.
Notation "x <- m ;; k" := (bind m (fun x => k))
  (at level 61, m at next level, right associativity) : prog_scope.
Notation "m ;; k" := (bind m (fun _ => k))
  (at level 61, right associativity) : prog_scope.

(** [if (p) { ... }] on a pointer that may be NULL. *)
Definition if_set {A} (p : option A) (body : A -> M unit) : M unit :=
  match p with
  | Some a => body a
  | None => ret tt
  end.

(** A run: the calls in the order they were made, and the end. *)
Record run := {
  trace : list event;
  result : outcome
}.

(** Reaching the closing brace of [main] returns 0. *)
Definition finish (m : M unit) : run :=
  match m [] with
  | (log, Go _) => {| trace := rev log; result := Returns 0 |}
  | (log, Halt o) => {| trace := rev log; result := o |}
  end.

(** The launch line the factory holds: what the latest
    [gst_rtsp_media_factory_set_launch] stored. *)
Fixpoint launch_of (log : list event) : cstring :=
  match log with
  | gst_rtsp_media_factory_set_launch l :: _ => l
  | _ :: log' => launch_of log'
  | [] => []
  end.

Definition gst_rtsp_media_factory_get_launch : M cstring :=
  fun log => (log, Go (launch_of log)).

Definition gst_rtsp_server_attach (env : environment) : M Z :=
  fun log => (ev_gst_rtsp_server_attach (attach_id env) :: log,
              Go (attach_id env)).

Definition g_main_loop_run (env : environment) : M unit :=
  fun log => (ev_g_main_loop_run :: log,
              if loop_quits env then Go tt else Halt Serves).

(** [argv[1]] after the options are gone. *)
Definition argv_1 (cmd : command_line) : option cstring :=
  match rest cmd with
  | a :: _ => Some a
  | [] => None
  end.

Section Program.

(** The minor version of GStreamer the program is compiled against. *)
Variable GST_VERSION_MINOR : Z.

(** What a store through [&mount+1] does to the variables: the linker
    decides what lies behind [mount]. *)
Variable store_past_mount : cstring -> globals -> globals.

Definition entries : list GOptionEntry :=
  [ entry (lit "port") "p" (G_OPTION_ARG_STRING addr_port)
      (lit "Port to listen on (default: " ++ DEFAULT_RTSP_PORT ++ lit ")")
      (lit "PORT");
    entry (lit "endpoint") "e" (G_OPTION_ARG_STRING addr_mount_plus_1)
      (lit "URI end point (default: " ++ DEFAULT_ENDPOINT ++ lit ")")
      (lit "Sevice Name");
    entry (lit "rtsp-profiles") "r" (G_OPTION_ARG_STRING addr_profiles)
      (lit "Allowed transfer profiles (default: AVP)")
      (lit "AVP+AVPF+SAVP+SAVPF");
    entry (lit "retransmission-time") "t"
      (G_OPTION_ARG_STRING addr_retransmitTime)
      (lit "Milliseconds to retain packets for retransmission" ++ nl
       ++ lit "      <also sets do-retransmission flag>")
      (lit "ms") ]
  ++ (if 20 <=? GST_VERSION_MINOR
      then [ entry (lit "disable-rtcp") NUL
               (G_OPTION_ARG_NONE addr_disable_rtcp)
               (lit "Disable RTCP") [] ]
      else []).

(** [*arg_data = value] for a string option. *)
Definition store_string (p : string_ptr) (v : cstring) (g : globals)
  : globals :=
  match p with
  | addr_port => set_port v g
  | addr_mount_plus_1 => store_past_mount v g
  | addr_profiles => set_profiles v g
  | addr_retransmitTime => set_retransmitTime v g
  end.

(** [*arg_data = TRUE] for an option without argument. *)
Definition store_flag (p : flag_ptr) (g : globals) : globals :=
  match p with
  | addr_disable_rtcp => set_disable_rtcp true g
  end.

Definition names (u : option_use) (e : GOptionEntry) : bool :=
  match u with
  | long_option name _ => cstring_eqb name (long_name e)
  | short_option c _ =>
      negb (is_nul (short_name e)) && Ascii.eqb c (short_name e)
  end.

Definition value_of (u : option_use) : option cstring :=
  match u with
  | long_option _ v => v
  | short_option _ v => v
  end.

(** GLib's part in one option.  A help option ends the process.  Any
    other option is looked up in the table of the program first, and its
    value stored where the entry says; a string option without value is
    a parse error.  A flag that is written with a value,
    [--disable-rtcp=x], is taken for one as well; GLib may take the flag
    and drop the value instead, and the statements below hold either
    way.  An option the table does not have is left to the group that
    was added, GStreamer's, when its name begins with "gst-"; what is
    nobody's is a parse error. *)
Definition parse_option (env : environment) (u : option_use) (g : globals)
  : parse_result :=
  if asks_help u then Exited
  else
    match find (names u) entries with
    | Some e =>
        match arg e, value_of u with
        | G_OPTION_ARG_STRING p, Some v => Parsed (store_string p v g)
        | G_OPTION_ARG_NONE p, None => Parsed (store_flag p g)
        | _, _ => Failed
        end
    | None =>
        match u with
        | long_option name value =>
            if gst_prefixed name
            then match gst_option env name value with
                 | group_takes => Parsed g
                 | group_refuses => Failed
                 | group_exits => Exited
                 end
            else Failed
        | short_option _ _ => Failed
        end
    end.

(** The options are parsed in the order they stand in; the first that
    fails or ends the process is the last one looked at. *)
Fixpoint parse_options (env : environment) (us : list option_use)
    (g : globals) : parse_result :=
  match us with
  | [] => Parsed g
  | u :: us' =>
      match parse_option env u g with
      | Parsed g' => parse_options env us' g'
      | Failed => Failed
      | Exited => Exited
      end
  end.

(** [g_option_context_parse (optctx, &argc, &argv, &error)]: the
    variables after the options are stored, or the failure; or the end of
    the process, after the help text or GStreamer's version was printed
    on standard output. *)
Definition g_option_context_parse (cmd : command_line) (env : environment)
  : M (option globals) :=
  fun log =>
    match parse_options env (uses cmd) initial_globals with
    | Parsed g => (ev_g_option_context_parse true :: log, Go (Some g))
    | Failed => (ev_g_option_context_parse false :: log, Go None)
    | Exited =>
        (ev_exit 0 :: g_print (exit_output env) :: log, Halt (Exits 0))
    end.

(** ** The session clean-up callback *)

Definition timeout : M bool :=
  (call gst_rtsp_server_get_session_pool ;;
   call gst_rtsp_session_pool_cleanup ;;
   call g_object_unref_pool ;;
   ret true)%prog.

(** GLib calls the function of a timeout source once per interval for as
    long as the function returns TRUE; [dispatch n f] is [n] intervals,
    and says whether the source is still there. *)
Fixpoint dispatch (n : nat) (f : M bool) : M bool :=
  match n with
  | O => ret true
  | S n' =>
      (again <- f ;;
       if again : bool then dispatch n' f else ret false)%prog
  end.

(** ** main *)

Definition main (cmd : command_line) (env : environment) : run :=
  finish (
    call (g_print
            (lit "Launch RTSP Server -- 11/21/23 brent@mbari.org" ++ nl)) ;;
    call g_option_context_new ;;
    call g_option_context_add_main_entries ;;
    call g_option_context_add_group ;;
    parsed <- g_option_context_parse cmd env ;;
    match parsed with
    | None =>
        call (g_printerr (lit "Error parsing options: "
                          ++ error_message env ++ nl)) ;;
        call g_option_context_free ;;
        call g_clear_error ;;
        return_ (-1)
    | Some g =>
        call g_option_context_free ;;
        match argv_1 cmd with
        | None =>
            call (g_printerr (lit "Error: empty pipeline" ++ nl)) ;;
            return_ (-1)
        | Some launch =>
            call g_main_loop_new ;;
            call gst_rtsp_server_new ;;
            call (g_object_set_service (port g)) ;;
            call gst_rtsp_server_get_mount_points ;;
            call gst_rtsp_media_factory_new ;;
            if_set (profiles g) (fun profiles =>
              match parse_profiles profiles with
              | Mask mask =>
                  call (gst_rtsp_media_factory_set_profiles mask)
              | BadProfiles =>
                  call (g_printerr
                          (lit "Unknown RTSP profiles (" ++ ["034"%char]
                           ++ profiles ++ ["034"%char]
                           ++ lit ") specified" ++ nl)) ;;
                  return_ 3
              | OutOfFuel => halt Unfinished
              end) ;;
            if_set (retransmitTime g) (fun retransmitTime =>
              match parse_retransmitTime retransmitTime with
              | None =>
                  call (g_printerr
                          (lit "Invalid retransmission time ("
                           ++ ["034"%char] ++ retransmitTime
                           ++ ["034"%char] ++ lit ") specified" ++ nl)) ;;
                  return_ 4
              | Some retransMs =>
                  call (gst_rtsp_media_factory_set_retransmission_time
                          (retransmission_time retransMs))
              end) ;;
            (if 20 <=? GST_VERSION_MINOR
             then call (gst_rtsp_media_factory_set_enable_rtcp
                          (negb (disable_rtcp g)))
             else ret tt) ;;
            call (gst_rtsp_media_factory_set_launch launch) ;;
            call (gst_rtsp_media_factory_set_shared true) ;;
            pipeline <- gst_rtsp_media_factory_get_launch ;;
            call (g_print (lit "Pipeline: " ++ pipeline ++ nl)) ;;
            call (gst_rtsp_mount_points_add_factory (mount g)) ;;
            call g_object_unref_mounts ;;
            id <- gst_rtsp_server_attach env ;;
            if id =? 0
            then
              call (g_print (lit "failed to attach the server" ++ nl)) ;;
              return_ 6
            else
              call (g_timeout_add_seconds 5 cb_timeout) ;;
              call (g_print (lit "Stream ready at rtsp://127.0.0.1:"
                             ++ port g ++ mount g ++ nl)) ;;
              g_main_loop_run env ;;
              return_ 0
        end
    end)%prog.

End Program.

(** ** The handler that is not connected *)

(** A stream of a media, as far as [media_constructed] looks at it. *)
Record GstRTSPStream := {
  is_sender : bool;
  stream_retransmission_time : Z
}.

(** A media, as far as [media_constructed] looks at it: its streams. *)
Definition GstRTSPMedia := list GstRTSPStream.

(** A number in decimal, with a minus sign when it is negative. *)
Definition decimal (z : Z) : cstring :=
  lit (NilZero.string_of_int (Z.to_int z)).

(** The value of the [w] bits of [z] read as a signed number. *)
Definition signed (w : Z) (z : Z) : Z :=
  let m := z mod 2 ^ w in
  if m <? 2 ^ (w - 1) then m else m - 2 ^ w.

(** [%d] given a [guint] and [%ld] given a [guint64], where [int] has 32
    bits and [long] 64: the bits are printed as a signed number. *)
Definition format_d (i : Z) : cstring := decimal (signed 32 i).
Definition format_ld (v : Z) : cstring := decimal (signed 64 v).

(** The number of streams, a [guint]. *)
Definition gst_rtsp_media_n_streams (media : GstRTSPMedia) : M Z :=
  fun log =>
    (ev_gst_rtsp_media_n_streams :: log,
     Go (Z.of_nat (length media) mod 2 ^ 32)).

(** The stream at [idx], NULL when there is none. *)
Definition gst_rtsp_media_get_stream (media : GstRTSPMedia) (idx : Z)
  : M (option GstRTSPStream) :=
  fun log =>
    (ev_gst_rtsp_media_get_stream idx :: log,
     Go (nth_error media (Z.to_nat idx))).

(** The two getters answer FALSE and 0 for a stream that is NULL. *)
Definition gst_rtsp_stream_is_sender (stream : option GstRTSPStream)
  : M bool :=
  fun log =>
    (ev_gst_rtsp_stream_is_sender :: log,
     Go (match stream with Some st => is_sender st | None => false end)).

Definition gst_rtsp_stream_get_retransmission_time
    (stream : option GstRTSPStream) : M Z :=
  fun log =>
    (ev_gst_rtsp_stream_get_retransmission_time :: log,
     Go (match stream with
         | Some st => stream_retransmission_time st mod 2 ^ 64
         | None => 0
         end)).

(** The [for] loop of [media_constructed] with [todo] passes to go.  C
    does not say which of the two getters in the argument list of
    [g_printerr] is called first; they are logged as they are written. *)
Fixpoint report_streams (media : GstRTSPMedia) (i : Z) (todo : nat)
  : M unit :=
  match todo with
  | O => ret tt
  | S todo' =>
      (stream <- gst_rtsp_media_get_stream media i ;;
       sender <- gst_rtsp_stream_is_sender stream ;;
       time <- gst_rtsp_stream_get_retransmission_time stream ;;
       call (g_printerr
               (format_d i ++ lit ":"
                ++ (if sender : bool then lit "Sender" else lit "Receiver")
                ++ lit " retransmission_time = "
                ++ format_ld time ++ nl)) ;;
       report_streams media ((i + 1) mod 2 ^ 32) todo')%prog
  end.

(** [media_constructed]; the two [g_signal_connect] calls that would hook
    it to the factory stand between [#if 0] and [#endif], so [main] never
    makes them. *)
Definition media_constructed (media : GstRTSPMedia) : M unit :=
  (n_streams <- gst_rtsp_media_n_streams media ;;
   report_streams media 0 (Z.to_nat n_streams) ;;
   call (gst_rtsp_media_set_do_retransmission true))%prog.

(** ** What the factory and the server end up with *)

(** The configuration a log of calls leaves on the media factory.  An
    option that was never set is [None]: the engine's default applies. *)
Record MediaFactoryConfig := {
  profileMask : option Z;
  retransmission : option Z;
  rtcpEnabled : option bool;
  pipelineDescription : option cstring;
  shared : option bool
}.

Definition unconfigured : MediaFactoryConfig := {|
  profileMask := None;
  retransmission := None;
  rtcpEnabled := None;
  pipelineDescription := None;
  shared := None
|}.

Definition configure (c : MediaFactoryConfig) (e : event)
  : MediaFactoryConfig :=
  match e with
  | gst_rtsp_media_factory_new => unconfigured
  | gst_rtsp_media_factory_set_profiles mask =>
      {| profileMask := Some mask; retransmission := retransmission c;
         rtcpEnabled := rtcpEnabled c;
         pipelineDescription := pipelineDescription c; shared := shared c |}
  | gst_rtsp_media_factory_set_retransmission_time time =>
      {| profileMask := profileMask c; retransmission := Some time;
         rtcpEnabled := rtcpEnabled c;
         pipelineDescription := pipelineDescription c; shared := shared c |}
  | gst_rtsp_media_factory_set_enable_rtcp enable =>
      {| profileMask := profileMask c; retransmission := retransmission c;
         rtcpEnabled := Some enable;
         pipelineDescription := pipelineDescription c; shared := shared c |}
  | gst_rtsp_media_factory_set_launch launch =>
      {| profileMask := profileMask c; retransmission := retransmission c;
         rtcpEnabled := rtcpEnabled c;
         pipelineDescription := Some launch; shared := shared c |}
  | gst_rtsp_media_factory_set_shared b =>
      {| profileMask := profileMask c; retransmission := retransmission c;
         rtcpEnabled := rtcpEnabled c;
         pipelineDescription := pipelineDescription c; shared := Some b |}
  | _ => c
  end.

Definition factory_config (t : list event) : MediaFactoryConfig :=
  fold_left configure t unconfigured.

(** Modelled from the spec: what the engine does with the retransmission
    time is GStreamer's, not this repository's.  The spec says that setting
    a duration that is not unset is what makes the factory retain packets
    for retransmission. *)
Definition retains_packets (c : MediaFactoryConfig) : bool :=
  match retransmission c with
  | Some _ => true
  | None => false
  end.

(** The paths of the mount table, in the order they were added. *)
Fixpoint mount_table (t : list event) : list cstring :=
  match t with
  | gst_rtsp_mount_points_add_factory path :: t' => path :: mount_table t'
  | _ :: t' => mount_table t'
  | [] => []
  end.

(** What was printed on standard output. *)
Fixpoint stdout (t : list event) : list cstring :=
  match t with
  | g_print text :: t' => text :: stdout t'
  | _ :: t' => stdout t'
  | [] => []
  end.

(** The calls that create the server, its mount table or the factory. *)
Definition constructs (e : event) : bool :=
  match e with
  | gst_rtsp_server_new => true
  | gst_rtsp_server_get_mount_points => true
  | gst_rtsp_media_factory_new => true
  | _ => false
  end.

(** The calls that would switch retransmission on by a flag of its own. *)
Definition toggles_retransmission (e : event) : bool :=
  match e with
  | gst_rtsp_media_set_do_retransmission _ => true
  | g_signal_connect _ _ => true
  | _ => false
  end.

Definition sets_profiles (e : event) : bool :=
  match e with
  | gst_rtsp_media_factory_set_profiles _ => true
  | _ => false
  end.

(** Every timeout source of the log is the 5-second [timeout] and was
    added when the latest [gst_rtsp_server_attach] had succeeded. *)
Fixpoint scheduled_after_attach (attached : bool) (t : list event) : bool :=
  match t with
  | [] => true
  | ev_gst_rtsp_server_attach id :: t' =>
      scheduled_after_attach (negb (id =? 0)) t'
  | g_timeout_add_seconds interval f :: t' =>
      attached && (interval =? 5)
      && match f with cb_timeout => true | _ => false end
      && scheduled_after_attach attached t'
  | _ :: t' => scheduled_after_attach attached t'
  end.

Fixpoint cleanups (log : list event) : nat :=
  match log with
  | gst_rtsp_session_pool_cleanup :: log' => S (cleanups log')
  | _ :: log' => cleanups log'
  | [] => O
  end.

(** ** The vocabulary of the specification *)

(** A profile token: secure or not, with feedback or not. *)
Record token := {
  secure : bool;
  feedback : bool
}.

Definition token_name (t : token) : cstring :=
  (if secure t then lit "S" else []) ++ lit "AVP"
  ++ (if feedback t then lit "F" else []).

Definition flag (t : token) : Z :=
  match secure t, feedback t with
  | false, false => GST_RTSP_PROFILE_AVP
  | true, false => GST_RTSP_PROFILE_SAVP
  | false, true => GST_RTSP_PROFILE_AVPF
  | true, true => GST_RTSP_PROFILE_SAVPF
  end.

(** [w] is the name of [t] in some mix of upper and lower case. *)
Definition spells (w : cstring) (t : token) : Prop :=
  map toupper w = token_name t.

(** A character of a C string that is not alphanumeric. *)
Definition delimiter (d : ascii) : Prop :=
  isalnum d = false /\ d <> NUL.

(** A string a program can be handed: no NUL inside. *)
Definition c_string (s : cstring) : Prop := Forall (fun c => c <> NUL) s.

(** Valid tokens with exactly one delimiter between neighbours. *)
Inductive profile_spec : cstring -> list token -> Prop :=
| spec_last w t :
    spells w t -> profile_spec w [t]
| spec_more w t d s ts :
    spells w t -> delimiter d -> profile_spec s ts ->
    profile_spec (w ++ d :: s) (t :: ts).

Definition mask_of (ts : list token) : Z :=
  fold_right (fun t m => Z.lor (flag t) m) 0 ts.

(** [w] stands in [s] as a token: a non-empty run of alphanumeric
    characters with no alphanumeric character next to it on either side. *)
Definition token_at (pre w post : cstring) : Prop :=
  w <> [] /\ forallb isalnum w = true
  /\ isalnum (last pre NUL) = false /\ isalnum (deref post 0) = false.

Definition has_unrecognized_token (s : cstring) : Prop :=
  exists pre w post,
    s = pre ++ w ++ post /\ token_at pre w post /\ forall t, ~ spells w t.

Definition has_undelimited_tokens (s : cstring) : Prop :=
  exists pre w1 t1 w2 t2 post,
    s = pre ++ w1 ++ w2 ++ post /\ spells w1 t1 /\ spells w2 t2.

(** The value of a string of decimal digits. *)
Definition decimal_value (s : cstring) : Z :=
  fold_left (fun acc c => acc * 10 + (code c - 48)) s 0.

(** [strlen]. *)
Fixpoint strlen (s : cstring) : nat :=
  match s with
  | c :: s' => if is_nul c then O else S (strlen s')
  | [] => O
  end.

(** ** Command lines and layouts used as examples *)

Definition pipeline : cstring :=
  lit "videotestsrc ! x264enc ! rtph264pay name=pay0 pt=96".

(** [--port 9000 --endpoint cam1 --rtsp-profiles AVP+SAVP
    --retransmission-time 150] and the pipeline. *)
Definition cam1 : command_line := {|
  uses := [ long_option (lit "port") (Some (lit "9000"));
            long_option (lit "endpoint") (Some (lit "cam1"));
            long_option (lit "rtsp-profiles") (Some (lit "AVP+SAVP"));
            long_option (lit "retransmission-time") (Some (lit "150")) ];
  rest := [pipeline]
|}.

(** [--rtsp-profiles] with the given value, and the pipeline. *)
Definition with_profiles (p : cstring) : command_line := {|
  uses := [ long_option (lit "rtsp-profiles") (Some p) ];
  rest := [pipeline]
|}.

(** Options, and no pipeline. *)
Definition no_pipeline : command_line := {|
  uses := [ short_option "p" (Some (lit "9000"));
            long_option (lit "rtsp-profiles") (Some (lit "XYZ")) ];
  rest := []
|}.

(** [--endpoint cam1] and the pipeline. *)
Definition endpoint_only : command_line := {|
  uses := [ long_option (lit "endpoint") (Some (lit "cam1")) ];
  rest := [pipeline]
|}.

(** A layout with nothing of the program behind [mount]. *)
Definition unused_slot (v : cstring) (g : globals) : globals := g.

(** A layout with [retransmitTime], the next variable declared, behind
    [mount]. *)
Definition declaration_order (v : cstring) (g : globals) : globals :=
  set_retransmitTime v g.

(** GStreamer's group as far as the examples go: [--gst-version] prints
    the version and ends the process, [--gst-debug-level] with a value is
    taken, and nothing else is known. *)
Definition gst_options (name : cstring) (value : option cstring)
  : group_answer :=
  if cstring_eqb name (lit "gst-version") then group_exits
  else if cstring_eqb name (lit "gst-debug-level")
       then match value with
            | Some _ => group_takes
            | None => group_refuses
            end
       else group_refuses.

(** The server attaches; the main loop runs for good, or is quit. *)
Definition serving : environment :=
  {| error_message := []; attach_id := 1; loop_quits := false;
     gst_option := gst_options; exit_output := [] |}.

(** ** Further vocabulary *)

(** The number of the bit a token's flag is. *)
Definition bit (t : token) : Z :=
  Z.b2z (secure t) + 2 * Z.b2z (feedback t).

(** What the loop makes of a string when it starts with [mask] in hand
    instead of 0. *)
Definition or_into (mask : Z) (o : profiles_outcome) : profiles_outcome :=
  match o with
  | Mask m => Mask (Z.lor mask m)
  | BadProfiles => BadProfiles
  | OutOfFuel => OutOfFuel
  end.

(** [c] is a digit of a numeral in [base]. *)
Definition digit_of (base : Z) (c : ascii) : bool :=
  match digit_value c with
  | Some d => d <? base
  | None => false
  end.

(** The value of a string of digits of [base]. *)
Definition numeral (base : Z) (s : cstring) : Z :=
  fold_left
    (fun acc c =>
       acc * base + match digit_value c with Some d => d | None => 0 end)
    s 0.

(** What was printed on standard error. *)
Fixpoint stderr (t : list event) : list cstring :=
  match t with
  | g_printerr text :: t' => text :: stderr t'
  | _ :: t' => stderr t'
  | [] => []
  end.

(** The calls that change the configuration of the factory. *)
Definition configures (e : event) : bool :=
  match e with
  | gst_rtsp_media_factory_set_profiles _ => true
  | gst_rtsp_media_factory_set_retransmission_time _ => true
  | gst_rtsp_media_factory_set_enable_rtcp _ => true
  | gst_rtsp_media_factory_set_launch _ => true
  | gst_rtsp_media_factory_set_shared _ => true
  | _ => false
  end.

(** No call of the log changes the factory once it is mounted. *)
Fixpoint configured_before_mount (mounted : bool) (t : list event) : bool :=
  match t with
  | [] => true
  | gst_rtsp_mount_points_add_factory _ :: t' =>
      configured_before_mount true t'
  | e :: t' =>
      negb (mounted && configures e) && configured_before_mount mounted t'
  end.

Definition attaches (e : event) : bool :=
  match e with
  | ev_gst_rtsp_server_attach _ => true
  | _ => false
  end.

Definition schedules (e : event) : bool :=
  match e with
  | g_timeout_add_seconds _ _ => true
  | _ => false
  end.

Definition runs_loop (e : event) : bool :=
  match e with
  | ev_g_main_loop_run => true
  | _ => false
  end.

(** The option of the given long and short name is what [u] uses. *)
Definition uses_option (name : cstring) (c : ascii) (u : option_use) : bool :=
  match u with
  | long_option n _ => cstring_eqb n name
  | short_option k _ => Ascii.eqb k c
  end.

(** The value of the last use of an option on a command line, [d] when
    there is none. *)
Definition last_value (name : cstring) (c : ascii) (us : list option_use)
    (d : option cstring) : option cstring :=
  fold_left
    (fun acc u => if uses_option name c u then value_of u else acc) us d.

(** The command line without the uses of the end point option that carry
    a value. *)
Definition without_endpoint (cmd : command_line) : command_line := {|
  uses :=
    filter
      (fun u =>
         negb (uses_option (lit "endpoint") "e" u
               && match value_of u with Some _ => true | None => false end))
      (uses cmd);
  rest := rest cmd
|}.

(** The references to the session pool the log holds: taken and not yet
    given back. *)
Fixpoint pool_references (log : list event) : Z :=
  match log with
  | gst_rtsp_server_get_session_pool :: log' => pool_references log' + 1
  | g_object_unref_pool :: log' => pool_references log' - 1
  | _ :: log' => pool_references log'
  | [] => 0
  end.

Definition reports (e : event) : bool :=
  match e with
  | g_printerr _ => true
  | _ => false
  end.

(** [--disable-rtcp] and the pipeline. *)
Definition without_rtcp : command_line := {|
  uses := [ long_option (lit "disable-rtcp") None ];
  rest := [pipeline]
|}.

(** The server does not attach. *)
Definition detached : environment :=
  {| error_message := []; attach_id := 0; loop_quits := false;
     gst_option := gst_options; exit_output := [] |}.

(** [u] is a use of [--disable-rtcp]; the option has no short name. *)
Definition disables_rtcp (u : option_use) : bool :=
  match u with
  | long_option n _ => cstring_eqb n (lit "disable-rtcp")
  | short_option _ _ => false
  end.

(** ** The exit codes of the specification *)

(** [u] ends the process during option parsing: a help option, or an
    option of GStreamer's that prints and exits. *)
Definition ends_process (env : environment) (u : option_use) : bool :=
  asks_help u
  || match u with
     | long_option name value =>
         gst_prefixed name
         && match gst_option env name value with
            | group_exits => true
            | _ => false
            end
     | short_option _ _ => false
     end.

(** The options of the specification's table that take a string, under
    their long and short names. *)
Definition string_option (u : option_use) : bool :=
  match u with
  | long_option name _ =>
      existsb (cstring_eqb name)
        [ lit "port"; lit "endpoint"; lit "rtsp-profiles";
          lit "retransmission-time" ]
  | short_option c _ => existsb (Ascii.eqb c) [ "p"; "e"; "r"; "t" ]%char
  end.

Definition has_value (u : option_use) : bool :=
  match value_of u with
  | Some _ => true
  | None => false
  end.

(** The flag of the table, which a program compiled against GStreamer
    1.20 or later has. *)
Definition rtcp_flag (GST_VERSION_MINOR : Z) (u : option_use) : bool :=
  (20 <=? GST_VERSION_MINOR) && disables_rtcp u.

(** What GStreamer's group says of [u], when [u] is for it to say. *)
Definition group_says (env : environment) (u : option_use)
  : option group_answer :=
  match u with
  | long_option name value =>
      if gst_prefixed name then Some (gst_option env name value) else None
  | short_option _ _ => None
  end.


(** A use that is a parse error: a string option without its value, and
    what is no option at all: not one of the table, not a help option,
    and for GStreamer's group either not its to say or refused by it. *)
Definition unparseable (GST_VERSION_MINOR : Z) (env : environment)
    (u : option_use) : bool :=
  negb (asks_help u)
  && (string_option u && negb (has_value u)
      || negb (string_option u) && negb (rtcp_flag GST_VERSION_MINOR u)
         && match group_says env u with
            | None | Some group_refuses => true
            | _ => false
            end).












(** ** The report of the handler *)

(** The line [media_constructed] writes for the stream at index [i]. *)
Definition stream_line (i : Z) (stream : GstRTSPStream) : cstring :=
  format_d i ++ lit ":"
  ++ (if is_sender stream then lit "Sender" else lit "Receiver")
  ++ lit " retransmission_time = "
  ++ format_ld (stream_retransmission_time stream) ++ nl.

Fixpoint stream_lines (i : Z) (streams : list GstRTSPStream)
  : list cstring :=
  match streams with
  | [] => []
  | stream :: streams' => stream_line i stream :: stream_lines (i + 1) streams'
  end.

Definition gets_stream (e : event) : bool :=
  match e with
  | ev_gst_rtsp_media_get_stream _ => true
  | _ => false
  end.

Definition asks_sender (e : event) : bool :=
  match e with
  | ev_gst_rtsp_stream_is_sender => true
  | _ => false
  end.

Definition asks_time (e : event) : bool :=
  match e with
  | ev_gst_rtsp_stream_get_retransmission_time => true
  | _ => false
  end.

(** ** More command lines *)

(** [--help], and no pipeline. *)
Definition help_only : command_line := {|
  uses := [ long_option (lit "help") None ];
  rest := []
|}.


(** * Properties *)

Example parse_AVP : parse_profiles (lit "AVP") = Mask 1.
Proof. reflexivity. Qed.
Example parse_AVP_AVPF : parse_profiles (lit "AVP+AVPF") = Mask 5.
Proof. reflexivity. Qed.
Example parse_savp : parse_profiles (lit "savp") = Mask 2.
Proof. reflexivity. Qed.
Example parse_avp_savpf : parse_profiles (lit "avp+savpf") = Mask 9.
Proof. reflexivity. Qed.
Example parse_AVPAVPF : parse_profiles (lit "AVPAVPF") = BadProfiles.
Proof. reflexivity. Qed.
Example parse_XYZ : parse_profiles (lit "XYZ") = BadProfiles.
Proof. reflexivity. Qed.

(** ** Characters *)

Ltac each_char c :=
  destruct c as [[] [] [] [] [] [] [] []]; vm_compute; try reflexivity;
  try discriminate; try tauto.

Lemma is_nul_true (c : ascii) : is_nul c = true <-> c = NUL.
Proof. apply Ascii.eqb_eq. Qed.

Lemma is_nul_false (c : ascii) : is_nul c = false <-> c <> NUL.
Proof. apply Ascii.eqb_neq. Qed.

Lemma code_inj (a b : ascii) : code a = code b -> a = b.
Proof.
  unfold code. intros H. apply N2Z.inj in H.
  rewrite <- (ascii_N_embedding a), <- (ascii_N_embedding b). now rewrite H.
Qed.

Lemma tolower_toupper (c : ascii) : tolower (toupper c) = tolower c.
Proof. each_char c. Qed.

Lemma toupper_tolower (c : ascii) : toupper (tolower c) = toupper c.
Proof. each_char c. Qed.

Lemma toupper_toupper (c : ascii) : toupper (toupper c) = toupper c.
Proof. each_char c. Qed.

Lemma isalnum_toupper (c : ascii) : isalnum (toupper c) = isalnum c.
Proof. each_char c. Qed.

Lemma toupper_nul (c : ascii) : toupper c = NUL -> c = NUL.
Proof. each_char c. Qed.

Lemma tolower_nul (c : ascii) : tolower c = NUL -> c = NUL.
Proof. each_char c. Qed.

Lemma isalnum_nul : isalnum NUL = false.
Proof. reflexivity. Qed.

Lemma tolower_eqb (a x : ascii) :
  Ascii.eqb (tolower a) (tolower x) = Ascii.eqb (toupper a) (toupper x).
Proof.
  apply eq_true_iff_eq. rewrite !Ascii.eqb_eq. split; intros H.
  - rewrite <- (toupper_tolower a), H. apply toupper_tolower.
  - rewrite <- (tolower_toupper a), H. apply tolower_toupper.
Qed.

(** A character that is a letter of [x] up to case. *)
Definition like (x a : ascii) : bool := Ascii.eqb (toupper a) x.

Lemma like_alnum (x a : ascii) :
  like x a = true -> isalnum x = true -> isalnum a = true.
Proof.
  unfold like. rewrite Ascii.eqb_eq. intros <-. now rewrite isalnum_toupper.
Qed.

Lemma not_alnum_unlike (x a : ascii) :
  isalnum a = false -> isalnum x = true -> like x a = false.
Proof.
  intros Ha Hx. destruct (like x a) eqn:E; [|reflexivity].
  rewrite (like_alnum x a E Hx) in Ha. discriminate.
Qed.

(** ** Pointers into a string *)

Lemma deref_at_offset (s : cstring) (p k : nat) :
  deref (at_offset s p) k = deref s (p + k).
Proof.
  unfold deref, at_offset. apply nth_skipn.
Qed.

Lemma at_offset_add (s : cstring) (p k : nat) :
  at_offset (at_offset s p) k = at_offset s (p + k).
Proof. unfold at_offset. rewrite skipn_skipn. f_equal. lia. Qed.

Lemma at_offset_app (w s : cstring) :
  at_offset (w ++ s) (length w) = s.
Proof.
  unfold at_offset. rewrite skipn_app, skipn_all, Nat.sub_diag. reflexivity.
Qed.

Lemma deref_app (w s : cstring) (k : nat) :
  deref (w ++ s) (length w + k) = deref s k.
Proof.
  unfold deref. rewrite app_nth2 by lia. f_equal. lia.
Qed.

Lemma deref_end (s : cstring) (p : nat) :
  (length s <= p)%nat -> deref s p = NUL.
Proof. intros H. unfold deref. now apply nth_overflow. Qed.

Lemma deref_not_nul (s : cstring) (p : nat) :
  deref s p <> NUL -> (p < length s)%nat.
Proof.
  intros H. destruct (Nat.ltb_spec p (length s)) as [L|L]; [exact L|].
  now rewrite deref_end in H.
Qed.

(** ** parseProfile *)

(** [strncasecmp (cursor, "AVP", 3)] is 0 exactly on the three letters. *)
Definition avp (u : cstring) : bool :=
  match u with
  | a :: v :: p :: _ => like "A" a && like "V" v && like "P" p
  | _ => false
  end.

Lemma strncasecmp_step (a x : ascii) (u y : cstring) (n : nat) :
  x <> NUL ->
  (strncasecmp (a :: u) (x :: y) (S n) =? 0)
  = like (toupper x) a && (strncasecmp u y n =? 0).
Proof.
  intros Hx. simpl. unfold deref; simpl. rewrite tolower_eqb. unfold like.
  destruct (Ascii.eqb (toupper a) (toupper x)) eqn:E.
  - destruct (is_nul (tolower a)) eqn:N.
    + apply is_nul_true, tolower_nul in N. subst a.
      apply Ascii.eqb_eq in E. symmetry in E.
      change (toupper NUL) with NUL in E. apply toupper_nul in E.
      contradiction.
    + reflexivity.
  - simpl. apply Z.eqb_neq. intros H.
    assert (tolower a = tolower x) as T by (apply code_inj; lia).
    apply Ascii.eqb_neq in E. apply E.
    rewrite <- (toupper_tolower a), T. apply toupper_tolower.
Qed.

Lemma strncasecmp_AVP (u : cstring) :
  (strncasecmp u (lit "AVP") 3 =? 0) = avp u.
Proof.
  destruct u as [|a [|v [|p u]]].
  - reflexivity.
  - change (lit "AVP") with ["A"; "V"; "P"]%char.
    rewrite strncasecmp_step by discriminate.
    change (toupper "A") with "A"%char.
    destruct (like "A" a) eqn:E; [|reflexivity].
    simpl. unfold deref, like in *. simpl. reflexivity.
  - change (lit "AVP") with ["A"; "V"; "P"]%char.
    rewrite !strncasecmp_step by discriminate.
    change (toupper "A") with "A"%char. change (toupper "V") with "V"%char.
    destruct (like "A" a), (like "V" v); reflexivity.
  - change (lit "AVP") with ["A"; "V"; "P"]%char.
    rewrite !strncasecmp_step by discriminate.
    change (toupper "A") with "A"%char. change (toupper "V") with "V"%char.
    change (toupper "P") with "P"%char. simpl.
    now rewrite andb_true_r, andb_assoc.
Qed.

Lemma parseProfile_shift (s : cstring) (base : nat) (r : Z) :
  parseProfile s base r =
  ((base + fst (parseProfile (at_offset s base) 0 r))%nat,
   snd (parseProfile (at_offset s base) 0 r)).
Proof.
  unfold parseProfile.
  rewrite !deref_at_offset, Nat.add_0_r.
  destruct (Ascii.eqb (toupper (deref s base)) "S").
  - rewrite at_offset_add.
    replace (base + 1)%nat with (S base) by lia.
    replace (base + (1 + 3))%nat with (S base + 3)%nat by lia.
    replace (Nat.eqb (S base) base) with false
      by (symmetry; apply Nat.eqb_neq; lia).
    change (Nat.eqb 1 0) with false.
    destruct (negb (strncasecmp (at_offset s (S base)) (lit "AVP") 3 =? 0));
      [simpl; f_equal; lia|].
    destruct (Ascii.eqb (toupper (deref s (S base + 3))) "F");
      simpl; f_equal; lia.
  - rewrite at_offset_add, Nat.add_0_r.
    rewrite Nat.eqb_refl. change (Nat.eqb 0 0) with true.
    destruct (negb (strncasecmp (at_offset s base) (lit "AVP") 3 =? 0));
      [simpl; f_equal; lia|].
    replace (base + (0 + 3))%nat with (base + 3)%nat by lia.
    destruct (Ascii.eqb (toupper (deref s (base + 3))) "F");
      simpl; f_equal; lia.
Qed.

Lemma parseProfile_nil (r : Z) : parseProfile [] 0 r = (O, r).
Proof. reflexivity. Qed.

Lemma parseProfile_plain (a : ascii) (u : cstring) (r : Z) :
  like "S" a = false ->
  parseProfile (a :: u) 0 r =
  if avp (a :: u)
  then if like "F" (deref (a :: u) 3)
       then (4%nat, Z.lor r GST_RTSP_PROFILE_AVPF)
       else (3%nat, Z.lor r GST_RTSP_PROFILE_AVP)
  else (O, r).
Proof.
  intros HS. unfold parseProfile.
  change (deref (a :: u) 0) with a. fold (like "S" a). rewrite HS.
  change (at_offset (a :: u) 0) with (a :: u).
  rewrite strncasecmp_AVP. destruct (avp (a :: u)); [|reflexivity].
  cbn [negb Nat.add]. fold (like "F" (deref (a :: u) 3)).
  destruct (like "F" (deref (a :: u) 3)); reflexivity.
Qed.

Lemma parseProfile_secure (a : ascii) (u : cstring) (r : Z) :
  like "S" a = true ->
  parseProfile (a :: u) 0 r =
  if avp u
  then if like "F" (deref u 3)
       then (5%nat, Z.lor r GST_RTSP_PROFILE_SAVPF)
       else (4%nat, Z.lor r GST_RTSP_PROFILE_SAVP)
  else (1%nat, r).
Proof.
  intros HS. unfold parseProfile.
  change (deref (a :: u) 0) with a. fold (like "S" a). rewrite HS.
  change (at_offset (a :: u) 1) with u.
  rewrite strncasecmp_AVP. destruct (avp u); [|reflexivity].
  cbn [negb Nat.add]. change (deref (a :: u) 4) with (deref u 3).
  fold (like "F" (deref u 3)).
  destruct (like "F" (deref u 3)); reflexivity.
Qed.

Lemma like_of_toupper (x a : ascii) : toupper a = x -> like x a = true.
Proof. intros <-. apply Ascii.eqb_refl. Qed.

Lemma toupper_of_like (x a : ascii) : like x a = true -> toupper a = x.
Proof. apply Ascii.eqb_eq. Qed.

Lemma like_distinct (x y a : ascii) :
  like x a = true -> x <> y -> like y a = false.
Proof.
  intros Hx Hxy. apply toupper_of_like in Hx. unfold like.
  apply Ascii.eqb_neq. congruence.
Qed.

(** On a spelling of a token that the next character does not turn into
    another token, [parseProfile] consumes the spelling and ors in the
    token's flag. *)
Lemma parseProfile_token (w rest : cstring) (t : token) (r : Z) :
  spells w t ->
  (feedback t = false -> like "F" (deref rest 0) = false) ->
  parseProfile (w ++ rest) 0 r = (length w, Z.lor r (flag t)).
Proof.
  unfold spells. destruct t as [[|] [|]]; cbn [token_name secure feedback];
    intros Hw HF;
    destruct w as [|c1 [|c2 [|c3 [|c4 [|c5 [|c6 w]]]]]]; try discriminate;
    cbn in Hw; injection Hw as H1 H2 H3 H4 H5 || injection Hw as H1 H2 H3 H4
      || injection Hw as H1 H2 H3;
    apply like_of_toupper in H1, H2, H3;
    try apply like_of_toupper in H4; try apply like_of_toupper in H5.
  - cbn [app]. rewrite parseProfile_secure by assumption.
    cbn [avp]. rewrite H2, H3, H4. cbn [andb].
    change (deref (c2 :: c3 :: c4 :: c5 :: rest) 3) with c5. rewrite H5.
    reflexivity.
  - cbn [app]. rewrite parseProfile_secure by assumption.
    cbn [avp]. rewrite H2, H3, H4. cbn [andb].
    change (deref (c2 :: c3 :: c4 :: rest) 3) with (deref rest 0).
    rewrite HF by reflexivity. reflexivity.
  - cbn [app]. rewrite parseProfile_plain
      by (apply (like_distinct "A"); [assumption | discriminate]).
    cbn [avp]. rewrite H1, H2, H3. cbn [andb].
    change (deref (c1 :: c2 :: c3 :: c4 :: rest) 3) with c4. rewrite H4.
    reflexivity.
  - cbn [app]. rewrite parseProfile_plain
      by (apply (like_distinct "A"); [assumption | discriminate]).
    cbn [avp]. rewrite H1, H2, H3. cbn [andb].
    change (deref (c1 :: c2 :: c3 :: rest) 3) with (deref rest 0).
    rewrite HF by reflexivity. reflexivity.
Qed.

(** When [parseProfile] recognises a profile at the head of [u], a
    spelling of a token stands there and is what it consumed. *)
Lemma parseProfile_recognized (u : cstring) :
  snd (parseProfile u 0 0) <> 0 ->
  exists w t rest,
    u = w ++ rest /\ spells w t
    /\ parseProfile u 0 0 = (length w, flag t)
    /\ (feedback t = false -> like "F" (deref rest 0) = false).
Proof.
  destruct u as [|a u]; [simpl; congruence|].
  destruct (like "S" a) eqn:HS.
  - rewrite parseProfile_secure by assumption.
    destruct (avp u) eqn:Havp; [|simpl; congruence].
    destruct u as [|c2 [|c3 [|c4 u]]]; try discriminate Havp.
    cbn [avp] in Havp.
    apply andb_prop in Havp as [Havp H4]. apply andb_prop in Havp as [H2 H3].
    change (deref (c2 :: c3 :: c4 :: u) 3) with (deref u 0).
    destruct (like "F" (deref u 0)) eqn:HF; intros _.
    + destruct u as [|c5 u]; [discriminate HF|].
      change (deref (c5 :: u) 0) with c5 in HF.
      exists [a; c2; c3; c4; c5], {| secure := true; feedback := true |}, u.
      repeat split; try discriminate.
      unfold spells. cbn.
      now rewrite (toupper_of_like _ _ HS), (toupper_of_like _ _ H2),
        (toupper_of_like _ _ H3), (toupper_of_like _ _ H4),
        (toupper_of_like _ _ HF).
    + exists [a; c2; c3; c4], {| secure := true; feedback := false |}, u.
      repeat split; try (intros _; exact HF).
      unfold spells. cbn.
      now rewrite (toupper_of_like _ _ HS), (toupper_of_like _ _ H2),
        (toupper_of_like _ _ H3), (toupper_of_like _ _ H4).
  - rewrite parseProfile_plain by assumption.
    destruct (avp (a :: u)) eqn:Havp; [|simpl; congruence].
    destruct u as [|c2 [|c3 u]]; try discriminate Havp.
    cbn [avp] in Havp.
    apply andb_prop in Havp as [Havp H3]. apply andb_prop in Havp as [H1 H2].
    change (deref (a :: c2 :: c3 :: u) 3) with (deref u 0).
    destruct (like "F" (deref u 0)) eqn:HF; intros _.
    + destruct u as [|c4 u]; [discriminate HF|].
      change (deref (c4 :: u) 0) with c4 in HF.
      exists [a; c2; c3; c4], {| secure := false; feedback := true |}, u.
      repeat split; try discriminate.
      unfold spells. cbn.
      now rewrite (toupper_of_like _ _ H1), (toupper_of_like _ _ H2),
        (toupper_of_like _ _ H3), (toupper_of_like _ _ HF).
    + exists [a; c2; c3], {| secure := false; feedback := false |}, u.
      repeat split; try (intros _; exact HF).
      unfold spells. cbn.
      now rewrite (toupper_of_like _ _ H1), (toupper_of_like _ _ H2),
        (toupper_of_like _ _ H3).
Qed.

(** ** Spellings *)

Lemma flag_not_0 (t : token) : flag t <> 0.
Proof. destruct t as [[|] [|]]; discriminate. Qed.

Lemma flag_bit (t : token) :
  flag t = Z.shiftl 1 (Z.b2z (secure t) + 2 * Z.b2z (feedback t)).
Proof. destruct t as [[|] [|]]; reflexivity. Qed.

Lemma forallb_isalnum_toupper (w : cstring) :
  forallb isalnum (map toupper w) = forallb isalnum w.
Proof.
  induction w as [|c w IH]; [reflexivity|].
  cbn. now rewrite isalnum_toupper, IH.
Qed.

Lemma spells_alnum (w : cstring) (t : token) :
  spells w t -> forallb isalnum w = true.
Proof.
  intros H. rewrite <- forallb_isalnum_toupper, H.
  destruct t as [[|] [|]]; reflexivity.
Qed.

Lemma spells_length (w : cstring) (t : token) :
  spells w t -> (3 <= length w <= 5)%nat.
Proof.
  intros H. rewrite <- (length_map toupper), H.
  destruct t as [[|] [|]]; cbn; lia.
Qed.

Lemma spells_head (w rest : cstring) (t : token) :
  spells w t -> is_nul (deref (w ++ rest) 0) = false.
Proof.
  intros H. pose proof (spells_alnum w t H) as A.
  destruct w as [|c w].
  - apply spells_length in H. cbn in H. lia.
  - cbn in A. apply andb_prop in A as [A _]. apply is_nul_false.
    change (deref ((c :: w) ++ rest) 0) with c. intros ->. discriminate A.
Qed.

(** ** The loop over the profiles *)

Lemma profiles_loop_shift (fuel : nat) (s : cstring) (cursor : nat) (mask : Z) :
  profiles_loop fuel s cursor mask
  = profiles_loop fuel (at_offset s cursor) 0 mask.
Proof.
  revert s cursor mask. induction fuel as [|fuel IH]; intros s cursor mask.
  - reflexivity.
  - cbn [profiles_loop].
    rewrite deref_at_offset, Nat.add_0_r, parseProfile_shift.
    destruct (parseProfile (at_offset s cursor) 0 0) as [c p]. cbn [fst snd].
    rewrite deref_at_offset, IH, (IH _ (S c)), at_offset_add.
    replace (cursor + S c)%nat with (S (cursor + c)) by lia.
    reflexivity.
Qed.

Lemma profiles_loop_eq (fuel : nat) (u : cstring) (mask : Z) :
  profiles_loop (S fuel) u 0 mask =
  if is_nul (deref u 0) then Mask mask
  else
    let '(c, p) := parseProfile u 0 0 in
    if p =? 0 then BadProfiles
    else if is_nul (deref u c) then Mask (Z.lor mask p)
    else if isalnum (deref u c) then BadProfiles
    else profiles_loop fuel (at_offset u (S c)) 0 (Z.lor mask p).
Proof.
  cbn [profiles_loop]. destruct (parseProfile u 0 0) as [c p].
  now rewrite profiles_loop_shift.
Qed.

(** One pass of the loop over a spelling that a delimiter follows. *)
Lemma profiles_loop_token (fuel : nat) (w : cstring) (t : token)
    (d : ascii) (rest : cstring) (mask : Z) :
  spells w t -> delimiter d ->
  profiles_loop (S fuel) (w ++ d :: rest) 0 mask
  = profiles_loop fuel rest 0 (Z.lor mask (flag t)).
Proof.
  intros Hw [Hd Hn]. rewrite profiles_loop_eq, (spells_head w _ t Hw).
  rewrite (parseProfile_token w (d :: rest) t 0 Hw)
    by (intros _; apply not_alnum_unlike; [exact Hd | reflexivity]).
  change (Z.lor 0 (flag t)) with (flag t).
  replace (flag t =? 0) with false
    by (symmetry; apply Z.eqb_neq, flag_not_0).
  replace (deref (w ++ d :: rest) (length w)) with d
    by (rewrite <- (Nat.add_0_r (length w)), deref_app; reflexivity).
  replace (is_nul d) with false by (symmetry; now apply is_nul_false).
  rewrite Hd.
  replace (at_offset (w ++ d :: rest) (S (length w))) with rest; [reflexivity|].
  change (d :: rest) with ([d] ++ rest). rewrite app_assoc.
  replace (S (length w)) with (length (w ++ [d]))
    by (rewrite length_app; simpl; lia).
  now rewrite at_offset_app.
Qed.

(** The last pass: the spelling ends the string. *)
Lemma profiles_loop_last (fuel : nat) (w : cstring) (t : token) (mask : Z) :
  spells w t ->
  profiles_loop (S fuel) w 0 mask = Mask (Z.lor mask (flag t)).
Proof.
  intros Hw. rewrite <- (app_nil_r w).
  rewrite profiles_loop_eq, (spells_head w _ t Hw).
  rewrite (parseProfile_token w [] t 0 Hw) by reflexivity.
  change (Z.lor 0 (flag t)) with (flag t).
  replace (flag t =? 0) with false
    by (symmetry; apply Z.eqb_neq, flag_not_0).
  rewrite app_nil_r, deref_end by lia. reflexivity.
Qed.

(** A profile spec, with or without one more delimiter behind it. *)
Lemma profiles_loop_spec (s : cstring) (ts : list token) :
  profile_spec s ts ->
  forall tail fuel mask,
    tail = [] \/ (exists d, tail = [d] /\ delimiter d) ->
    (length (s ++ tail) < fuel)%nat ->
    profiles_loop fuel (s ++ tail) 0 mask = Mask (Z.lor mask (mask_of ts)).
Proof.
  induction 1 as [w t Hw | w t d s ts Hw Hd Hs IH];
    intros tail fuel mask Htail Hfuel.
  - destruct fuel as [|fuel]; [lia|]. destruct Htail as [-> | (d & -> & Hd)].
    + rewrite app_nil_r. cbn [mask_of fold_right]. rewrite Z.lor_0_r.
      now apply profiles_loop_last.
    + rewrite (profiles_loop_token fuel w t d [] mask Hw Hd).
      rewrite length_app in Hfuel. cbn in Hfuel.
      destruct fuel as [|fuel]; [lia|].
      cbn [mask_of fold_right]. rewrite Z.lor_0_r. reflexivity.
  - destruct fuel as [|fuel]; [lia|].
    rewrite <- app_assoc. cbn [app].
    rewrite (profiles_loop_token fuel w t d (s ++ tail) mask Hw Hd).
    rewrite IH; [|exact Htail|].
    + cbn [mask_of fold_right]. now rewrite Z.lor_assoc.
    + rewrite !length_app in *. cbn [length] in *. lia.
Qed.

(** The loop never runs out of the fuel [parse_profiles] gives it. *)
Lemma profiles_loop_fuel (fuel : nat) :
  forall (u : cstring) (mask : Z),
    (length u < fuel)%nat -> profiles_loop fuel u 0 mask <> OutOfFuel.
Proof.
  induction fuel as [|fuel IH]; intros u mask Hfuel; [lia|].
  rewrite profiles_loop_eq.
  destruct (is_nul (deref u 0)) eqn:N; [discriminate|].
  apply is_nul_false, deref_not_nul in N.
  destruct (parseProfile u 0 0) as [c p].
  destruct (p =? 0); [discriminate|].
  destruct (is_nul (deref u c)); [discriminate|].
  destruct (isalnum (deref u c)); [discriminate|].
  apply IH. unfold at_offset. rewrite length_skipn. lia.
Qed.

Lemma parse_profiles_total (s : cstring) : parse_profiles s <> OutOfFuel.
Proof. apply profiles_loop_fuel. lia. Qed.

(** ** Tokens in a string *)

Lemma alnum_prefix_unique (w : cstring) :
  forall w0 post tail,
    forallb isalnum w = true -> forallb isalnum w0 = true ->
    isalnum (deref post 0) = false -> isalnum (deref tail 0) = false ->
    w ++ post = w0 ++ tail -> w = w0.
Proof.
  induction w as [|a w IH]; intros [|b w0] post tail Hw Hw0 Hp Ht E;
    cbn in *.
  - reflexivity.
  - subst post. apply andb_prop in Hw0 as [Hb _].
    change (deref (b :: w0 ++ tail) 0) with b in Hp. congruence.
  - subst tail. apply andb_prop in Hw as [Ha _].
    change (deref (a :: w ++ post) 0) with a in Ht. congruence.
  - injection E as -> E. apply andb_prop in Hw as [_ Hw].
    apply andb_prop in Hw0 as [_ Hw0]. f_equal.
    apply (IH w0 post tail); assumption.
Qed.

Lemma last_cons (c : ascii) (l : cstring) :
  l <> [] -> last (c :: l) NUL = last l NUL.
Proof. destruct l; [congruence | reflexivity]. Qed.

(** Behind an alphanumeric run [w0] that ends at [tail], a token of the
    string is [w0] itself or a token of what follows the delimiter. *)
Lemma token_split (w0 : cstring) :
  forall tail pre w post,
    forallb isalnum w0 = true -> isalnum (deref tail 0) = false ->
    w0 ++ tail = pre ++ w ++ post -> token_at pre w post ->
    (pre = [] /\ w = w0)
    \/ (exists d rest pre',
          tail = d :: rest /\ token_at pre' w post
          /\ rest = pre' ++ w ++ post).
Proof.
  induction w0 as [|a w0 IH]; intros tail pre w post Hw0 Ht E T.
  - cbn in E. destruct pre as [|c pre].
    + exfalso. destruct T as (Hne & Hw & _ & _).
      destruct w as [|b w]; [congruence|]. cbn in E. subst tail.
      cbn in Hw. apply andb_prop in Hw as [Hb _].
      change (deref (b :: w ++ post) 0) with b in Ht. congruence.
    + right. exists c, (pre ++ w ++ post), pre. repeat split; try easy;
        try apply T.
      destruct T as (_ & _ & Hl & _). destruct pre as [|c' pre].
      * reflexivity.
      * now rewrite last_cons in Hl.
  - cbn in Hw0. apply andb_prop in Hw0 as [Ha Hw0].
    destruct pre as [|c pre].
    + left. split; [reflexivity|]. destruct T as (_ & Hw & _ & Hp).
      cbn [app] in E. symmetry.
      apply (alnum_prefix_unique (a :: w0) w tail post); cbn; try easy.
      now rewrite Ha.
    + right. cbn in E. injection E as <- E.
      assert (pre <> []) as Hpre.
      { intros ->. destruct T as (_ & _ & Hl & _). cbn in Hl. congruence. }
      assert (token_at pre w post) as T'.
      { destruct T as (H1 & H2 & H3 & H4). repeat split; try assumption.
        now rewrite last_cons in H3. }
      destruct (IH tail pre w post Hw0 Ht E T')
        as [[-> _] | (d & rest & pre' & -> & T'' & ->)]; [congruence|].
      exists d, (pre' ++ w ++ post), pre'.
      split; [reflexivity | split; [exact T'' | reflexivity]].
Qed.

Lemma c_string_app (a b : cstring) :
  c_string (a ++ b) -> c_string a /\ c_string b.
Proof. apply Forall_app. Qed.

(** What a pass of the loop has seen when the loop ends with a mask. *)
Lemma profiles_loop_accepts (fuel : nat) (u : cstring) (mask m : Z) :
  c_string u ->
  profiles_loop (S fuel) u 0 mask = Mask m ->
  u = []
  \/ exists w t,
       spells w t
       /\ (u = w
           \/ exists d rest,
                u = w ++ d :: rest /\ isalnum d = false
                /\ profiles_loop fuel rest 0 (Z.lor mask (flag t)) = Mask m).
Proof.
  intros Hu. rewrite profiles_loop_eq.
  destruct u as [|a u]; [now left|]. intros H. right.
  change (deref (a :: u) 0) with a in H.
  replace (is_nul a) with false in H
    by (symmetry; apply is_nul_false; now inversion Hu).
  destruct (parseProfile (a :: u) 0 0) as [c p] eqn:E.
  destruct (p =? 0) eqn:P; [discriminate|]. apply Z.eqb_neq in P.
  destruct (parseProfile_recognized (a :: u)) as (w & t & rest & Eu & Hw & Ep & _).
  { now rewrite E. }
  rewrite E in Ep. injection Ep as -> ->. rewrite Eu in H, Hu.
  exists w, t. split; [exact Hw|].
  rewrite <- (Nat.add_0_r (length w)), deref_app in H.
  destruct rest as [|d rest].
  - left. now rewrite app_nil_r in Eu.
  - right. exists d, rest. change (deref (d :: rest) 0) with d in H.
    apply c_string_app in Hu as [_ Hu].
    replace (is_nul d) with false in H
      by (symmetry; apply is_nul_false; now inversion Hu).
    destruct (isalnum d) eqn:D; [discriminate|].
    repeat split; try assumption. rewrite <- H. f_equal.
    change (d :: rest) with ([d] ++ rest). rewrite app_assoc.
    replace (S (length w + 0)) with (length (w ++ [d]))
      by (rewrite length_app; simpl; lia).
    now rewrite at_offset_app.
Qed.

(** When the loop ends with a mask, every token of the string is a
    spelling of a profile. *)
Lemma accepted_tokens (fuel : nat) :
  forall (u : cstring) (mask m : Z),
    c_string u ->
    profiles_loop fuel u 0 mask = Mask m ->
    forall pre w post,
      u = pre ++ w ++ post -> token_at pre w post -> exists t, spells w t.
Proof.
  induction fuel as [|fuel IH]; intros u mask m Hu Hm pre w post E T;
    [discriminate|].
  destruct (profiles_loop_accepts fuel u mask m Hu Hm)
    as [-> | (w0 & t & Hw0 & [-> | (d & rest & -> & Hd & Hrest)])].
  - destruct T as (Hne & _). destruct pre; destruct w; try discriminate.
    congruence.
  - rewrite <- (app_nil_r w0) in E.
    destruct (token_split w0 [] pre w post (spells_alnum _ _ Hw0) eq_refl E T)
      as [[_ ->] | (d & rest & pre' & D & _)]; [|discriminate].
    now exists t.
  - destruct (token_split w0 (d :: rest) pre w post
                (spells_alnum _ _ Hw0) Hd E T)
      as [[_ ->] | (d' & rest' & pre' & D & T' & E')]; [now exists t|].
    injection D as <- <-.
    apply c_string_app in Hu as [_ Hu]. inversion Hu; subst.
    eapply IH; eauto.
Qed.

Lemma unrecognized_token_rejected (s : cstring) :
  c_string s -> has_unrecognized_token s -> parse_profiles s = BadProfiles.
Proof.
  intros Hs (pre & w & post & E & T & Hw).
  destruct (parse_profiles s) as [m| |] eqn:P.
  - exfalso. destruct (accepted_tokens _ s 0 m Hs P pre w post E T) as [t Ht].
    exact (Hw t Ht).
  - reflexivity.
  - now apply parse_profiles_total in P.
Qed.

Lemma span_left (l : cstring) :
  exists a b,
    l = a ++ b /\ forallb isalnum a = true /\ isalnum (deref b 0) = false.
Proof.
  induction l as [|c l (a & b & -> & Ha & Hb)].
  - now exists [], [].
  - destruct (isalnum c) eqn:C.
    + exists (c :: a), b. cbn. now rewrite C.
    + now exists [], (c :: a ++ b).
Qed.

Lemma span_right (l : cstring) :
  exists a b,
    l = a ++ b /\ forallb isalnum b = true /\ isalnum (last a NUL) = false.
Proof.
  induction l as [|c l (a & b & -> & Hb & Ha)] using rev_ind.
  - now exists [], [].
  - destruct (isalnum c) eqn:C.
    + exists a, (b ++ [c]). rewrite app_assoc, forallb_app. cbn.
      now rewrite Hb, C.
    + exists ((a ++ b) ++ [c]), []. rewrite app_nil_r, last_last. easy.
Qed.

(** Two spellings side by side lie in one token, which is too long to be
    a spelling. *)
Lemma undelimited_unrecognized (s : cstring) :
  has_undelimited_tokens s -> has_unrecognized_token s.
Proof.
  intros (pre & w1 & t1 & w2 & t2 & post & -> & H1 & H2).
  destruct (span_right pre) as (pre' & b & -> & Hb & Hpre).
  destruct (span_left post) as (a & post' & -> & Ha & Hpost).
  exists pre', (b ++ w1 ++ w2 ++ a), post'. split; [|split].
  - now rewrite <- !app_assoc.
  - repeat split; try assumption.
    + apply spells_length in H1. destruct b; destruct w1; cbn in *;
        try discriminate; lia.
    + rewrite !forallb_app, Hb, Ha, (spells_alnum _ _ H1),
        (spells_alnum _ _ H2). reflexivity.
  - intros t Ht. apply spells_length in Ht, H1, H2.
    rewrite !length_app in Ht. lia.
Qed.

(** ** Profile specs *)

(** C1: a profile spec made of valid tokens in any mix of case, with
    exactly one delimiter (any character that is not alphanumeric) between
    neighbours, parses to the mask that is the bitwise or of the tokens'
    flags.  A spelling on its own is consumed whole and yields the flag of
    its token, and that flag is the single bit numbered by the token's two
    properties: the leading S selects the secure pair, the trailing F the
    feedback pair. *)
Theorem profile_spec_mask (s : cstring) (ts : list token) :
  profile_spec s ts ->
  parse_profiles s = Mask (mask_of ts)
  /\ (forall w t, spells w t -> parseProfile w 0 0 = (length w, flag t))
  /\ (forall t,
        flag t = Z.shiftl 1 (Z.b2z (secure t) + 2 * Z.b2z (feedback t))).
Proof.
  intros Hs. split; [|split].
  - unfold parse_profiles. rewrite <- (app_nil_r s).
    rewrite (profiles_loop_spec s ts Hs [] _ 0); [reflexivity | now left |].
    rewrite app_nil_r. lia.
  - intros w t Hw. rewrite <- (app_nil_r w) at 1.
    now rewrite (parseProfile_token w [] t 0 Hw).
  - apply flag_bit.
Qed.

Lemma profile_spec_mask_witness :
  profile_spec (lit "avp;SAVPF")
    [ {| secure := false; feedback := false |};
      {| secure := true; feedback := true |} ]
  /\ parse_profiles (lit "avp;SAVPF")
     = Mask (Z.lor GST_RTSP_PROFILE_AVP GST_RTSP_PROFILE_SAVPF).
Proof.
  assert (profile_spec (lit "avp;SAVPF")
            [ {| secure := false; feedback := false |};
              {| secure := true; feedback := true |} ]) as H.
  { apply (spec_more (lit "avp") _ ";"%char (lit "SAVPF")).
    - reflexivity.
    - split; [reflexivity | discriminate].
    - apply spec_last. reflexivity. }
  split; [exact H|].
  exact (proj1 (profile_spec_mask _ _ H)).
Defined.

(** C6, the input of the claim: the loop accepts "AVP+". *)
Lemma trailing_delimiter_accepted :
  parse_profiles (lit "AVP+") = Mask GST_RTSP_PROFILE_AVP
  /\ parse_profiles (lit "AVP+") <> BadProfiles
  /\ result (main 22 unused_slot (with_profiles (lit "AVP+")) serving)
     = Serves
  /\ profileMask
       (factory_config
          (trace (main 22 unused_slot (with_profiles (lit "AVP+")) serving)))
     = Some GST_RTSP_PROFILE_AVP.
Proof. repeat split; try reflexivity. discriminate. Qed.

(** C6, as the code has it: a profile spec followed by one delimiter
    parses to the mask of the spec.  After the delimiter is skipped the
    loop tests for the end of the string before it looks for a token. *)
Theorem trailing_delimiter_mask (s : cstring) (ts : list token) (d : ascii) :
  profile_spec s ts -> delimiter d ->
  parse_profiles (s ++ [d]) = Mask (mask_of ts).
Proof.
  intros Hs Hd. unfold parse_profiles.
  rewrite (profiles_loop_spec s ts Hs [d] _ 0); [reflexivity | | lia].
  right. now exists d.
Qed.

Lemma trailing_delimiter_mask_witness :
  profile_spec (lit "AVP") [ {| secure := false; feedback := false |} ]
  /\ delimiter "+"
  /\ parse_profiles (lit "AVP" ++ ["+"%char]) = Mask GST_RTSP_PROFILE_AVP.
Proof.
  assert (profile_spec (lit "AVP")
            [ {| secure := false; feedback := false |} ]) as H
    by (apply spec_last; reflexivity).
  assert (delimiter "+") as D by (split; [reflexivity | discriminate]).
  split; [exact H | split; [exact D|]].
  exact (trailing_delimiter_mask _ _ _ H D).
Defined.

(** ** The retransmission time is a [guint64] *)

Lemma digit_value_nonneg (c : ascii) (d : Z) : digit_value c = Some d -> 0 <= d.
Proof.
  unfold digit_value. destruct (isdigit c) eqn:D.
  - intros [= <-]. unfold isdigit, between in D.
    apply andb_prop in D as [D _]. lia.
  - destruct (isalpha c) eqn:A; [|discriminate]. intros [= <-].
    revert A. clear. each_char c.
Qed.

Lemma digits_nonneg (base : Z) (s : cstring) :
  forall acc n, 0 <= base -> 0 <= acc -> 0 <= fst (digits base s acc n).
Proof.
  induction s as [|c s IH]; intros acc n Hb Ha; cbn; [exact Ha|].
  destruct (digit_value c) as [d|] eqn:D; [|exact Ha].
  destruct (d <? base); [|exact Ha].
  apply IH; [exact Hb|]. apply digit_value_nonneg in D. nia.
Qed.

Lemma strtoull_range (s : cstring) :
  0 <= fst (strtoull s 0) <= ULLONG_MAX.
Proof.
  unfold strtoull.
  destruct (digits _ _ 0 0) as [v n] eqn:D.
  destruct n; cbn [fst]; [unfold ULLONG_MAX; lia|].
  destruct (ULLONG_MAX <? v) eqn:O; [unfold ULLONG_MAX; lia|].
  apply Z.ltb_ge in O.
  destruct (Ascii.eqb (deref s (count_space s)) "-").
  - pose proof (Z.mod_pos_bound (2 ^ 64 - v) (2 ^ 64) ltac:(lia)).
    unfold ULLONG_MAX. lia.
  - match type of D with
    | digits ?b ?u 0 0 = _ =>
        assert (0 <= b) as Hb
          by (repeat match goal with |- context [if ?c then _ else _] =>
                       destruct c end; lia);
        pose proof (digits_nonneg b u 0 0 Hb (Z.le_refl 0)) as Hv
    end.
    rewrite D in Hv. cbn [fst] in Hv. lia.
Qed.

Lemma parse_retransmitTime_range (s : cstring) (v : Z) :
  parse_retransmitTime s = Some v -> 0 <= v <= ULLONG_MAX.
Proof.
  unfold parse_retransmitTime. pose proof (strtoull_range s) as R.
  destruct (strtoull s 0) as [ms e]. cbn [fst] in R.
  destruct (_ || _); [discriminate|]. now intros [= <-].
Qed.

(** ** What strtoull consumes *)

Lemma deref_strlen (s : cstring) : deref s (strlen s) = NUL.
Proof.
  induction s as [|c s IH]; [reflexivity|]. cbn [strlen].
  destruct (is_nul c) eqn:N.
  - now apply is_nul_true in N.
  - exact IH.
Qed.

Lemma before_strlen (s : cstring) :
  forall k, (k < strlen s)%nat -> deref s k <> NUL.
Proof.
  induction s as [|c s IH]; intros k Hk; cbn [strlen] in Hk; [lia|].
  destruct (is_nul c) eqn:N; [lia|]. destruct k as [|k].
  - now apply is_nul_false.
  - apply IH. lia.
Qed.

Lemma strlen_bound (s : cstring) (e : nat) :
  (forall k, (k < e)%nat -> deref s k <> NUL) -> (e <= strlen s)%nat.
Proof.
  intros H. destruct (Nat.le_gt_cases e (strlen s)) as [L|L]; [exact L|].
  exfalso. exact (H _ L (deref_strlen s)).
Qed.

Lemma strlen_at_nul (s : cstring) (e : nat) :
  (forall k, (k < e)%nat -> deref s k <> NUL) -> deref s e = NUL ->
  e = strlen s.
Proof.
  intros Hb He. apply Nat.le_antisymm; [now apply strlen_bound|].
  destruct (Nat.le_gt_cases (strlen s) e) as [L|L]; [exact L|].
  exfalso. exact (before_strlen s e L He).
Qed.

Lemma count_space_spaces (s : cstring) :
  forall k, (k < count_space s)%nat -> isspace (deref s k) = true.
Proof.
  induction s as [|c s IH]; intros k Hk; cbn [count_space] in Hk; [lia|].
  destruct (isspace c) eqn:C; [|lia]. destruct k as [|k]; [exact C|].
  apply IH. lia.
Qed.

Lemma digits_count (base : Z) (s : cstring) :
  forall acc n0 v n,
    digits base s acc n0 = (v, n) ->
    (n0 <= n)%nat
    /\ forall j, (j < n - n0)%nat -> digit_value (deref s j) <> None.
Proof.
  induction s as [|c s IH]; intros acc n0 v n; cbn [digits].
  - intros [= <- <-]. split; [lia|]. intros j Hj. lia.
  - destruct (digit_value c) as [d|] eqn:D.
    + destruct (d <? base).
      * intros H. apply IH in H as [Hle Hd]. split; [lia|].
        intros [|j] Hj.
        -- change (deref (c :: s) 0) with c. congruence.
        -- apply Hd. lia.
      * intros [= <- <-]. split; [lia|]. intros j Hj. lia.
    + intros [= <- <-]. split; [lia|]. intros j Hj. lia.
Qed.

Lemma space_not_nul (c : ascii) : isspace c = true -> c <> NUL.
Proof. intros H ->. discriminate H. Qed.

Lemma digit_not_nul (c : ascii) : digit_value c <> None -> c <> NUL.
Proof. intros H ->. now apply H. Qed.

(** [strtoull] never moves [end] across a terminator. *)
Lemma strtoull_consumes (s : cstring) :
  forall k, (k < snd (strtoull s 0))%nat -> deref s k <> NUL.
Proof.
  unfold strtoull. change (0 =? 0) with true. cbn [orb andb].
  set (sp := count_space s).
  set (sign := Ascii.eqb (deref s sp) "-" || Ascii.eqb (deref s sp) "+").
  set (i := if sign then S sp else sp).
  rewrite andb_true_r.
  set (prefixed := Ascii.eqb (deref s i) "0"
                   && Ascii.eqb (toupper (deref s (S i))) "X").
  set (save := if prefixed then S (S i) else i).
  assert (forall k, (k < i)%nat -> deref s k <> NUL) as Hi.
  { intros k Hk. destruct (Nat.lt_ge_cases k sp) as [L|L].
    - now apply space_not_nul, count_space_spaces.
    - subst i. destruct sign eqn:Sg; [|lia].
      assert (k = sp) as -> by lia. subst sign.
      intros E. fold sp in E. rewrite E in Sg. discriminate Sg. }
  assert (prefixed = true -> deref s i <> NUL) as Hzero.
  { subst prefixed. intros P E. rewrite E in P. discriminate P. }
  assert (forall k, (k < save)%nat -> deref s k <> NUL) as Hsave.
  { intros k Hk. destruct (Nat.lt_ge_cases k i) as [L|L]; [now apply Hi|].
    subst save. destruct prefixed eqn:P; [|lia].
    destruct (Nat.eq_dec k i) as [->|Hne]; [now apply Hzero|].
    assert (k = S i) as -> by lia.
    subst prefixed. apply andb_prop in P as [_ P].
    intros E. rewrite E in P. discriminate P. }
  destruct (digits _ (at_offset s save) 0 0) as [v n] eqn:D.
  apply digits_count in D as [_ D].
  destruct n as [|n]; cbn [snd].
  - destruct prefixed; [|intros k Hk; lia].
    intros k Hk. destruct (Nat.eq_dec k i) as [->|Hne];
      [now apply Hzero | apply Hi; lia].
  - intros k Hk. destruct (Nat.lt_ge_cases k save) as [L|L];
      [now apply Hsave|].
    replace k with (save + (k - save))%nat by lia.
    rewrite <- deref_at_offset. apply digit_not_nul, D. lia.
Qed.

Lemma isdigit_facts (c : ascii) :
  isdigit c = true ->
  isspace c = false /\ Ascii.eqb c "-" = false /\ Ascii.eqb c "+" = false
  /\ digit_value c = Some (code c - 48) /\ code c - 48 < 10.
Proof. each_char c. all: repeat split; reflexivity. Qed.

Lemma digits_decimal (s : cstring) :
  forall acc n,
    forallb isdigit s = true ->
    digits 10 s acc n
    = (fold_left (fun a c => a * 10 + (code c - 48)) s acc,
       (n + length s)%nat).
Proof.
  induction s as [|c s IH]; intros acc n H; cbn in *.
  - f_equal. lia.
  - apply andb_prop in H as [Hc Hs].
    destruct (isdigit_facts c Hc) as (_ & _ & _ & -> & L).
    replace (code c - 48 <? 10) with true by (symmetry; now apply Z.ltb_lt).
    rewrite IH by assumption. f_equal. lia.
Qed.

(** C2, inputs of the claim's kind: strings that are not made of digits
    alone are accepted, a string of digits alone is rejected, and another
    is read in base 8. *)
Lemma not_only_digit_strings :
  (forallb isdigit (lit "0x1F") = false
   /\ parse_retransmitTime (lit "0x1F") = Some 31)
  /\ (forallb isdigit (lit " +200") = false
      /\ parse_retransmitTime (lit " +200") = Some 200)
  /\ (forallb isdigit (lit "-1") = false
      /\ parse_retransmitTime (lit "-1") = Some ULLONG_MAX)
  /\ (forallb isdigit (lit "08") = true
      /\ parse_retransmitTime (lit "08") = None)
  /\ (forallb isdigit (lit "010") = true
      /\ parse_retransmitTime (lit "010") = Some 8).
Proof. vm_compute. repeat split; reflexivity. Qed.

(** C2, as the code has it: the retransmission time is read by [strtoull]
    in base 0.  It is rejected exactly when nothing was converted or a
    character is left behind the numeral; when it is accepted the numeral
    reaches the end of the string.  A string of decimal digits that does
    not begin with 0 is accepted with its decimal value, [ULLONG_MAX] when
    that does not fit: "200" is 200, and "200ms" and the empty string
    are rejected.  Digits behind a leading 0 are octal, and white space, a
    sign and a 0x prefix may lead. *)
Theorem retransmission_time_syntax (s : cstring) :
  (parse_retransmitTime s = None <->
   snd (strtoull s 0) = O \/ deref s (snd (strtoull s 0)) <> NUL)
  /\ (forall v,
        parse_retransmitTime s = Some v ->
        v = fst (strtoull s 0)
        /\ snd (strtoull s 0) = strlen s /\ (0 < strlen s)%nat)
  /\ (s <> [] -> forallb isdigit s = true -> deref s 0 <> "0"%char ->
      parse_retransmitTime s = Some (Z.min (decimal_value s) ULLONG_MAX))
  /\ parse_retransmitTime (lit "200") = Some 200
  /\ parse_retransmitTime (lit "200ms") = None
  /\ parse_retransmitTime [] = None
  /\ parse_retransmitTime (lit "010") = Some 8
  /\ parse_retransmitTime (lit "08") = None
  /\ parse_retransmitTime (lit " +200") = Some 200
  /\ parse_retransmitTime (lit "0x1F") = Some 31
  /\ parse_retransmitTime (lit "-1") = Some (2 ^ 64 - 1).
Proof.
  split; [|split; [|split; [|now vm_compute]]].
  - unfold parse_retransmitTime. destruct (strtoull s 0) as [ms e]. cbn [snd].
    destruct (is_nul (deref s e)) eqn:N; cbn [negb orb].
    + apply is_nul_true in N. destruct (Nat.eqb_spec e 0) as [->|Hne].
      * split; [now left | reflexivity].
      * split; [discriminate | intros [E|E]; congruence].
    + apply is_nul_false in N. split; [now right | reflexivity].
  - intros v. unfold parse_retransmitTime.
    pose proof (strtoull_consumes s) as C.
    destruct (strtoull s 0) as [ms e]. cbn [fst snd] in *.
    destruct (is_nul (deref s e)) eqn:N; cbn [negb orb]; [|discriminate].
    destruct (Nat.eqb_spec e 0) as [->|Hne]; [discriminate|].
    intros [= <-]. apply is_nul_true in N.
    pose proof (strlen_at_nul s e C N). split; [reflexivity|]. lia.
  - intros Hne Hd H0. destruct s as [|c s]; [congruence|].
    change (deref (c :: s) 0) with c in H0.
    pose proof Hd as Hall. cbn [forallb] in Hd.
    apply andb_prop in Hd as [Hc _].
    destruct (isdigit_facts c Hc) as (Hsp & Hminus & Hplus & _ & _).
    assert (Ascii.eqb c "0" = false) as Hz by now apply Ascii.eqb_neq.
    unfold parse_retransmitTime, strtoull. cbn [count_space]. rewrite Hsp.
    change (deref (c :: s) 0) with c. rewrite Hminus, Hplus.
    cbn [orb]. cbv iota. change (deref (c :: s) 0) with c. rewrite Hz.
    cbn [orb andb]. change (0 =? 0) with true. cbv iota.
    change (at_offset (c :: s) 0) with (c :: s).
    rewrite (digits_decimal (c :: s) 0 0 Hall).
    fold (decimal_value (c :: s)). cbn [Nat.add length].
    rewrite deref_end by (cbn; lia). cbn [negb orb Nat.eqb is_nul].
    change (is_nul NUL) with true. cbn [negb orb]. f_equal.
    destruct (Z.ltb_spec ULLONG_MAX (decimal_value (c :: s))); lia.
Qed.

Lemma retransmission_time_syntax_witness :
  (lit "150" <> [] /\ forallb isdigit (lit "150") = true
   /\ deref (lit "150") 0 <> "0"%char)
  /\ parse_retransmitTime (lit "150")
     = Some (Z.min (decimal_value (lit "150")) ULLONG_MAX)
  /\ (fst (strtoull (lit "150") 0) = 150
      /\ snd (strtoull (lit "150") 0) = strlen (lit "150")).
Proof.
  assert (lit "150" <> []) as H1 by discriminate.
  assert (forallb isdigit (lit "150") = true) as H2 by reflexivity.
  assert (deref (lit "150") 0 <> "0"%char) as H3 by discriminate.
  split; [now repeat split|].
  split.
  - exact (proj1 (proj2 (proj2 (retransmission_time_syntax (lit "150"))))
             H1 H2 H3).
  - destruct (proj1 (proj2 (retransmission_time_syntax (lit "150"))) 150
                eq_refl) as (E & L & _).
    split; [now symmetry | exact L].
Defined.

(** ** Runs of main *)

Section Runs.

Variable GST_VERSION_MINOR : Z.
Variable store_past_mount : cstring -> globals -> globals.

(** Unfold [main] down to the tests it makes, and decide them one after
    the other; what is left of a goal speaks about one explicit log. *)
Ltac run_main :=
  unfold main, finish, bind, call, ret, return_, halt,
    if_set, g_option_context_parse, gst_rtsp_server_attach,
    g_main_loop_run, gst_rtsp_media_factory_get_launch.

Ltac decide_test :=
  match goal with
  | |- context [parse_options ?v ?f ?e ?u ?g0] =>
      destruct (parse_options v f e u g0) as [?g| |] eqn:?
  | |- context [argv_1 ?c] => destruct (argv_1 c) as [?launch|] eqn:?
  | |- context [profiles ?g] => destruct (profiles g) as [?p|] eqn:?
  | |- context [parse_profiles ?p] =>
      pose proof (parse_profiles_total p);
      destruct (parse_profiles p) as [?m| |] eqn:?; [| |congruence]
  | |- context [retransmitTime ?g] =>
      destruct (retransmitTime g) as [?r|] eqn:?
  | |- context [parse_retransmitTime ?r] =>
      destruct (parse_retransmitTime r) as [?ms|] eqn:?
  | |- context [20 <=? GST_VERSION_MINOR] =>
      destruct (20 <=? GST_VERSION_MINOR) eqn:?
  | |- context [attach_id ?e =? 0] => destruct (attach_id e =? 0) eqn:?
  | |- context [loop_quits ?e] => destruct (loop_quits e) eqn:?
  end.

Ltac by_cases := run_main; repeat decide_test; cbn.

Lemma main_finishes (cmd : command_line) (env : environment) :
  result (main GST_VERSION_MINOR store_past_mount cmd env) <> Unfinished.
Proof. by_cases; discriminate. Qed.

(** C4: a profile spec with a token that is no profile name, or with
    two names and no delimiter between them, sends the loop to
    [badProfiles]; and whenever the loop ends there, [main] returns 3 and
    no mask, partial or not, has been set on the factory. *)
Theorem bad_profiles_rejected (cmd : command_line) (env : environment)
    (g : globals) (s : cstring) :
  parse_options GST_VERSION_MINOR store_past_mount env (uses cmd)
    initial_globals
  = Parsed g ->
  argv_1 cmd <> None ->
  profiles g = Some s ->
  (c_string s ->
   has_unrecognized_token s \/ has_undelimited_tokens s ->
   parse_profiles s = BadProfiles)
  /\ (parse_profiles s = BadProfiles ->
      result (main GST_VERSION_MINOR store_past_mount cmd env) = Returns 3
      /\ existsb sets_profiles
           (trace (main GST_VERSION_MINOR store_past_mount cmd env)) = false
      /\ profileMask
           (factory_config
              (trace (main GST_VERSION_MINOR store_past_mount cmd env)))
         = None
      /\ mount_table
           (trace (main GST_VERSION_MINOR store_past_mount cmd env)) = []).
Proof.
  intros Hparse Hargv Hprofiles. split.
  - intros Hs Hbad. apply unrecognized_token_rejected; [exact Hs|].
    destruct Hbad as [Hbad | Hbad];
      [exact Hbad | now apply undelimited_unrecognized].
  - intros Hrejected.
    run_main. rewrite Hparse. cbv beta iota.
    destruct (argv_1 cmd) as [launch|]; [|congruence].
    rewrite Hprofiles, Hrejected. cbn. now repeat split.
Qed.

(** C10: with the empty string for the profiles the loop ends at its
    first test, the mask 0 is set on the factory, and [main] does not
    return 3. *)
Theorem empty_profiles_applied (cmd : command_line) (env : environment)
    (g : globals) :
  parse_options GST_VERSION_MINOR store_past_mount env (uses cmd)
    initial_globals
  = Parsed g ->
  argv_1 cmd <> None ->
  profiles g = Some [] ->
  parse_profiles [] = Mask 0
  /\ (forall fuel mask, profiles_loop (S fuel) [] 0 mask = Mask mask)
  /\ In (gst_rtsp_media_factory_set_profiles 0)
       (trace (main GST_VERSION_MINOR store_past_mount cmd env))
  /\ profileMask
       (factory_config
          (trace (main GST_VERSION_MINOR store_past_mount cmd env)))
     = Some 0
  /\ result (main GST_VERSION_MINOR store_past_mount cmd env) <> Returns 3.
Proof.
  intros Hparse Hargv Hprofiles.
  split; [reflexivity|]. split; [reflexivity|].
  run_main. rewrite Hparse. cbv beta iota.
  destruct (argv_1 cmd) as [launch|]; [|congruence].
  rewrite Hprofiles. change (parse_profiles []) with (Mask 0).
  cbv beta iota. repeat decide_test; cbn;
    (split; [tauto | split; [reflexivity | discriminate]]).
Qed.

(** C7: when the retransmission time parses to [v], a value of
    [guint64], the factory is given [v * GST_MSECOND] reduced modulo
    2^64, which makes it retain packets; [main] connects no handler and
    sets no flag for that. *)
Theorem retransmission_time_stored (cmd : command_line) (env : environment)
    (g : globals) (s : cstring) (v : Z) :
  parse_options GST_VERSION_MINOR store_past_mount env (uses cmd)
    initial_globals
  = Parsed g ->
  argv_1 cmd <> None ->
  (forall p, profiles g = Some p -> parse_profiles p <> BadProfiles) ->
  retransmitTime g = Some s ->
  parse_retransmitTime s = Some v ->
  0 <= v <= ULLONG_MAX
  /\ retransmission
       (factory_config
          (trace (main GST_VERSION_MINOR store_past_mount cmd env)))
     = Some ((v * GST_MSECOND) mod 2 ^ 64)
  /\ retains_packets
       (factory_config
          (trace (main GST_VERSION_MINOR store_past_mount cmd env)))
     = true
  /\ existsb toggles_retransmission
       (trace (main GST_VERSION_MINOR store_past_mount cmd env)) = false.
Proof.
  intros Hparse Hargv Hprofiles Htime Hv.
  split; [exact (parse_retransmitTime_range s v Hv)|].
  run_main. rewrite Hparse. cbv beta iota.
  destruct (argv_1 cmd) as [launch|]; [|congruence].
  rewrite Htime, Hv. cbv beta iota.
  destruct (profiles g) as [p|] eqn:Hp.
  - pose proof (parse_profiles_total p) as Htotal.
    pose proof (Hprofiles p eq_refl) as Hgood.
    destruct (parse_profiles p) as [m| |]; [|congruence|congruence].
    repeat decide_test; cbn; now repeat split.
  - repeat decide_test; cbn; now repeat split.
Qed.

Lemma dispatch_timeout (n : nat) :
  forall log,
    exists log',
      dispatch n timeout log = (log', Go true)
      /\ cleanups log' = (n + cleanups log)%nat.
Proof.
  induction n as [|n IH]; intros log.
  - now exists log.
  - cbn [dispatch]. unfold bind at 1.
    change (timeout log)
      with (g_object_unref_pool :: gst_rtsp_session_pool_cleanup
            :: gst_rtsp_server_get_session_pool :: log, Go true).
    cbv beta iota.
    destruct (IH (g_object_unref_pool :: gst_rtsp_session_pool_cleanup
                  :: gst_rtsp_server_get_session_pool :: log))
      as (log' & E & C).
    exists log'. split; [exact E|]. rewrite C. cbn. lia.
Qed.

(** C8: in every run the only timeout source is the 5-second one that
    calls [timeout], and it is added after the server was attached with
    success; a run that serves has added it.  A call of [timeout] gets
    the session pool, has it cleaned up, drops the reference and returns
    TRUE, so however often the main loop dispatches the source, it stays
    scheduled and every dispatch has cleaned the pool. *)
Theorem session_cleanup_scheduled (cmd : command_line) (env : environment) :
  scheduled_after_attach false
    (trace (main GST_VERSION_MINOR store_past_mount cmd env)) = true
  /\ (result (main GST_VERSION_MINOR store_past_mount cmd env) = Serves ->
      In (g_timeout_add_seconds 5 cb_timeout)
        (trace (main GST_VERSION_MINOR store_past_mount cmd env))
      /\ attach_id env <> 0)
  /\ (forall log,
        timeout log
        = (g_object_unref_pool :: gst_rtsp_session_pool_cleanup
           :: gst_rtsp_server_get_session_pool :: log, Go true))
  /\ (forall n log,
        exists log',
          dispatch n timeout log = (log', Go true)
          /\ cleanups log' = (n + cleanups log)%nat).
Proof.
  split; [|split; [|split]].
  - run_main; repeat decide_test; cbn;
      try match goal with
          | E : (attach_id env =? 0) = _ |- _ => rewrite E
          end;
      reflexivity.
  - run_main; repeat decide_test; cbn; intros Hserves;
      try discriminate Hserves; split; try tauto.
    all: apply Z.eqb_neq; assumption.
  - reflexivity.
  - apply dispatch_timeout.
Qed.

(** Every store of the table but the one through [&mount+1] leaves
    [mount] alone by what it is; that one by where it goes. *)
Hypothesis past_mount_is_not_mount :
  forall v g, mount (store_past_mount v g) = mount g.

Lemma parse_option_mount (env : environment) (u : option_use)
    (g g' : globals) :
  parse_option GST_VERSION_MINOR store_past_mount env u g = Parsed g' ->
  mount g' = mount g.
Proof.
  unfold parse_option. destruct (asks_help u); [discriminate|].
  destruct (find _ _) as [e|].
  - destruct (arg e) as [[]|p], (value_of u) as [v|]; try discriminate;
      intros [= <-]; [reflexivity|].
    destruct p; [reflexivity | apply past_mount_is_not_mount | |];
      reflexivity.
  - destruct u as [name value|c value]; [|discriminate].
    destruct (gst_prefixed name); [|discriminate].
    destruct (gst_option env name value); try discriminate.
    now intros [= <-].
Qed.

Lemma parse_options_mount (env : environment) (us : list option_use) :
  forall g g',
    parse_options GST_VERSION_MINOR store_past_mount env us g = Parsed g' ->
    mount g' = mount g.
Proof.
  induction us as [|u us IH]; intros g g'; cbn.
  - now intros [= <-].
  - destruct (parse_option _ _ env u g) as [g1| |] eqn:E; try discriminate.
    intros H. rewrite (IH _ _ H). now apply parse_option_mount in E.
Qed.

(** C3, on the code: no option reaches the variable [mount], so whatever
    the command line says the factory is mounted at "/video" and the
    readiness message ends in "/video". *)
Theorem endpoint_never_reaches_mount (cmd : command_line)
    (env : environment) :
  (forall path,
     In path
       (mount_table (trace (main GST_VERSION_MINOR store_past_mount cmd env)))
     -> path = lit "/video")
  /\ (result (main GST_VERSION_MINOR store_past_mount cmd env) = Serves ->
      mount_table (trace (main GST_VERSION_MINOR store_past_mount cmd env))
      = [lit "/video"]
      /\ exists port,
           last (stdout
                   (trace (main GST_VERSION_MINOR store_past_mount cmd env)))
             []
           = lit "Stream ready at rtsp://127.0.0.1:" ++ port
             ++ lit "/video" ++ nl).
Proof.
  split.
  - run_main; repeat decide_test;
      try match goal with
          | H : parse_options _ _ _ _ _ = Parsed ?g |- _ =>
              rewrite (parse_options_mount _ _ _ _ H)
          end;
      cbn; intros path Hin; intuition congruence.
  - run_main; repeat decide_test;
      try match goal with
          | H : parse_options _ _ _ _ _ = Parsed ?g |- _ =>
              rewrite (parse_options_mount _ _ _ _ H)
          end;
      cbn; intros Hserves; try discriminate Hserves;
      (split; [reflexivity|]);
      match goal with
      | |- context [port ?g] => exists (port g)
      end; reflexivity.
Qed.

End Runs.

(** ** The theorems at work *)

Lemma endpoint_never_reaches_mount_witness :
  (forall v g, mount (unused_slot v g) = mount g)
  /\ result (main 22 unused_slot cam1 serving) = Serves
  /\ mount_table (trace (main 22 unused_slot cam1 serving)) = [lit "/video"]
  /\ (exists port,
        last (stdout (trace (main 22 unused_slot cam1 serving))) []
        = lit "Stream ready at rtsp://127.0.0.1:" ++ port
          ++ lit "/video" ++ nl).
Proof.
  assert (forall v g, mount (unused_slot v g) = mount g) as H
    by reflexivity.
  assert (result (main 22 unused_slot cam1 serving) = Serves) as S
    by reflexivity.
  split; [exact H | split; [exact S|]].
  exact (proj2 (endpoint_never_reaches_mount 22 unused_slot H cam1 serving) S).
Defined.

Lemma bad_profiles_rejected_witness :
  parse_options 22 unused_slot serving (uses (with_profiles (lit "AVPAVPF")))
    initial_globals
  = Parsed (set_profiles (lit "AVPAVPF") initial_globals)
  /\ c_string (lit "AVPAVPF")
  /\ has_undelimited_tokens (lit "AVPAVPF")
  /\ parse_profiles (lit "AVPAVPF") = BadProfiles
  /\ result (main 22 unused_slot (with_profiles (lit "AVPAVPF")) serving)
     = Returns 3
  /\ existsb sets_profiles
       (trace (main 22 unused_slot (with_profiles (lit "AVPAVPF")) serving))
     = false.
Proof.
  assert (parse_options 22 unused_slot serving
            (uses (with_profiles (lit "AVPAVPF"))) initial_globals
          = Parsed (set_profiles (lit "AVPAVPF") initial_globals)) as H1
    by reflexivity.
  assert (argv_1 (with_profiles (lit "AVPAVPF")) <> None) as H2
    by discriminate.
  assert (c_string (lit "AVPAVPF")) as H3
    by (repeat constructor; discriminate).
  assert (has_undelimited_tokens (lit "AVPAVPF")) as H4.
  { exists [], (lit "AVP"), {| secure := false; feedback := false |},
      (lit "AVPF"), {| secure := false; feedback := true |}, [].
    repeat split. }
  destruct (bad_profiles_rejected 22 unused_slot
              (with_profiles (lit "AVPAVPF")) serving _ _ H1 H2 eq_refl)
    as (B & E).
  pose proof (B H3 (or_intror H4)) as P.
  destruct (E P) as (R & N & _).
  repeat split; assumption.
Defined.

Lemma unknown_name_rejected_example :
  has_unrecognized_token (lit "XYZ")
  /\ parse_profiles (lit "XYZ") = BadProfiles.
Proof.
  split; [|reflexivity].
  exists [], (lit "XYZ"), []. repeat split; try discriminate.
  intros [[|] [|]]; discriminate.
Qed.

Lemma empty_profiles_applied_witness :
  parse_options 22 unused_slot serving (uses (with_profiles []))
    initial_globals
  = Parsed (set_profiles [] initial_globals)
  /\ In (gst_rtsp_media_factory_set_profiles 0)
       (trace (main 22 unused_slot (with_profiles []) serving))
  /\ result (main 22 unused_slot (with_profiles []) serving) <> Returns 3.
Proof.
  assert (parse_options 22 unused_slot serving (uses (with_profiles []))
            initial_globals
          = Parsed (set_profiles [] initial_globals)) as H1 by reflexivity.
  assert (argv_1 (with_profiles []) <> None) as H2 by discriminate.
  destruct (empty_profiles_applied 22 unused_slot (with_profiles []) serving
              _ H1 H2 eq_refl) as (_ & _ & I & _ & R).
  repeat split; assumption.
Defined.

Lemma retransmission_time_stored_witness :
  parse_options 22 unused_slot serving (uses cam1) initial_globals
  = Parsed {| port := lit "9000"; mount := lit "/video";
            retransmitTime := Some (lit "150");
            profiles := Some (lit "AVP+SAVP"); disable_rtcp := false |}
  /\ parse_retransmitTime (lit "150") = Some 150
  /\ retransmission
       (factory_config (trace (main 22 unused_slot cam1 serving)))
     = Some 150000000
  /\ retains_packets
       (factory_config (trace (main 22 unused_slot cam1 serving))) = true.
Proof.
  assert (parse_options 22 unused_slot serving (uses cam1) initial_globals
          = Parsed {| port := lit "9000"; mount := lit "/video";
                    retransmitTime := Some (lit "150");
                    profiles := Some (lit "AVP+SAVP");
                    disable_rtcp := false |}) as H1 by reflexivity.
  assert (argv_1 cam1 <> None) as H2 by discriminate.
  assert (forall p, Some (lit "AVP+SAVP") = Some p ->
                    parse_profiles p <> BadProfiles) as H3
    by (intros p [= <-]; discriminate).
  assert (parse_retransmitTime (lit "150") = Some 150) as H4 by reflexivity.
  destruct (retransmission_time_stored 22 unused_slot cam1 serving _ _ _
              H1 H2 H3 eq_refl H4) as (_ & T & K & _).
  repeat split; assumption.
Defined.

(** The run of the specification's end-to-end example, with nothing of the
    program behind [mount]. *)
Example cam1_run :
  result (main 22 unused_slot cam1 serving) = Serves
  /\ mount_table (trace (main 22 unused_slot cam1 serving)) = [lit "/video"]
  /\ last (stdout (trace (main 22 unused_slot cam1 serving))) []
     = lit "Stream ready at rtsp://127.0.0.1:9000/video" ++ nl
  /\ factory_config (trace (main 22 unused_slot cam1 serving))
     = {| profileMask :=
            Some (Z.lor GST_RTSP_PROFILE_AVP GST_RTSP_PROFILE_SAVP);
          retransmission := Some (150 * GST_MSECOND);
          rtcpEnabled := Some true;
          pipelineDescription := Some pipeline;
          shared := Some true |}.
Proof. repeat split. Qed.

(** Where [retransmitTime] lies behind [mount], the end point is taken
    for the retransmission time: the run ends with 4, nothing mounted. *)
Example endpoint_stored_behind_mount :
  result (main 22 declaration_order endpoint_only serving) = Returns 4
  /\ mount_table (trace (main 22 declaration_order endpoint_only serving))
     = []
  /\ mount_table (trace (main 22 unused_slot endpoint_only serving))
     = [lit "/video"].
Proof. repeat split. Qed.

Lemma session_cleanup_scheduled_witness :
  result (main 22 unused_slot cam1 serving) = Serves
  /\ In (g_timeout_add_seconds 5 cb_timeout)
       (trace (main 22 unused_slot cam1 serving))
  /\ attach_id serving <> 0.
Proof.
  assert (result (main 22 unused_slot cam1 serving) = Serves) as S
    by reflexivity.
  split; [exact S|].
  exact (proj1 (proj2 (session_cleanup_scheduled 22 unused_slot cam1 serving))
           S).
Defined.

(** * More of the code *)

(** ** The profile parser without regard to case *)

Lemma deref_map_toupper (s : cstring) (p : nat) :
  deref (map toupper s) p = toupper (deref s p).
Proof. unfold deref. change NUL with (toupper NUL) at 1. apply map_nth. Qed.

Lemma at_offset_map (f : ascii -> ascii) (s : cstring) (p : nat) :
  at_offset (map f s) p = map f (at_offset s p).
Proof. unfold at_offset. apply skipn_map. Qed.

Lemma is_nul_toupper (c : ascii) : is_nul (toupper c) = is_nul c.
Proof. each_char c. Qed.

Lemma strncasecmp_toupper (n : nat) :
  forall u v, strncasecmp (map toupper u) v n = strncasecmp u v n.
Proof.
  induction n as [|n IH]; intros u v; [reflexivity|].
  cbn [strncasecmp]. rewrite deref_map_toupper, tolower_toupper.
  replace (tl (map toupper u)) with (map toupper (tl u))
    by (now destruct u).
  now rewrite IH.
Qed.

Lemma parseProfile_toupper (s : cstring) (base : nat) (r : Z) :
  parseProfile (map toupper s) base r = parseProfile s base r.
Proof.
  unfold parseProfile.
  rewrite !deref_map_toupper, !toupper_toupper.
  destruct (Ascii.eqb (toupper (deref s base)) "S");
    now rewrite at_offset_map, strncasecmp_toupper.
Qed.

Lemma profiles_loop_toupper (fuel : nat) :
  forall s cursor mask,
    profiles_loop fuel (map toupper s) cursor mask
    = profiles_loop fuel s cursor mask.
Proof.
  induction fuel as [|fuel IH]; intros s cursor mask; [reflexivity|].
  cbn [profiles_loop].
  rewrite deref_map_toupper, is_nul_toupper, parseProfile_toupper.
  destruct (parseProfile s cursor 0) as [c p].
  now rewrite deref_map_toupper, is_nul_toupper, isalnum_toupper, IH.
Qed.

Lemma parse_profiles_toupper (s : cstring) :
  parse_profiles (map toupper s) = parse_profiles s.
Proof.
  unfold parse_profiles. rewrite length_map. apply profiles_loop_toupper.
Qed.

(** X1: the outcome of the profile loop depends on the string only up to
    the case of its letters: two strings that are equal once upper-cased
    are both rejected or both accepted with the same mask. *)
Theorem profiles_case_insensitive (s1 s2 : cstring) :
  map toupper s1 = map toupper s2 ->
  parse_profiles s1 = parse_profiles s2.
Proof.
  intros H.
  now rewrite <- (parse_profiles_toupper s1), H, parse_profiles_toupper.
Qed.

Lemma profiles_case_insensitive_witness :
  map toupper (lit "sAvP,avpf") = map toupper (lit "SAVP,AVPF")
  /\ parse_profiles (lit "sAvP,avpf") = parse_profiles (lit "SAVP,AVPF").
Proof.
  assert (map toupper (lit "sAvP,avpf") = map toupper (lit "SAVP,AVPF")) as H
    by reflexivity.
  split; [exact H|].
  exact (profiles_case_insensitive _ _ H).
Defined.

(** ** How the loop composes *)

Lemma profiles_loop_or_into (fuel : nat) :
  forall u mask,
    profiles_loop fuel u 0 mask = or_into mask (profiles_loop fuel u 0 0).
Proof.
  induction fuel as [|fuel IH]; intros u mask; [reflexivity|].
  rewrite !profiles_loop_eq.
  destruct (is_nul (deref u 0)); [cbn; now rewrite Z.lor_0_r|].
  destruct (parseProfile u 0 0) as [c p].
  destruct (p =? 0); [reflexivity|].
  destruct (is_nul (deref u c)); [reflexivity|].
  destruct (isalnum (deref u c)); [reflexivity|].
  rewrite (IH _ (Z.lor mask p)), (IH _ (Z.lor 0 p)).
  destruct (profiles_loop fuel (at_offset u (S c)) 0 0); cbn;
    [|reflexivity|reflexivity].
  now rewrite Z.lor_assoc.
Qed.

Lemma profiles_loop_enough (fuel : nat) :
  forall fuel' u mask,
    (length u < fuel)%nat -> (length u < fuel')%nat ->
    profiles_loop fuel u 0 mask = profiles_loop fuel' u 0 mask.
Proof.
  induction fuel as [|fuel IH]; intros [|fuel'] u mask H H'; try lia.
  rewrite !profiles_loop_eq.
  destruct (is_nul (deref u 0)) eqn:N; [reflexivity|].
  apply is_nul_false, deref_not_nul in N.
  destruct (parseProfile u 0 0) as [c p].
  destruct (p =? 0); [reflexivity|].
  destruct (is_nul (deref u c)); [reflexivity|].
  destruct (isalnum (deref u c)); [reflexivity|].
  apply IH; unfold at_offset; rewrite length_skipn; lia.
Qed.

Lemma profiles_loop_from (fuel : nat) (u : cstring) (mask : Z) :
  (length u < fuel)%nat ->
  profiles_loop fuel u 0 mask = or_into mask (parse_profiles u).
Proof.
  intros H. unfold parse_profiles.
  rewrite (profiles_loop_enough fuel (S (length u)) u mask H) by lia.
  apply profiles_loop_or_into.
Qed.

Lemma profiles_loop_prefix (s : cstring) (ts : list token) :
  profile_spec s ts ->
  forall d rest fuel mask,
    delimiter d ->
    (length (s ++ d :: rest) < fuel)%nat ->
    profiles_loop fuel (s ++ d :: rest) 0 mask
    = or_into (Z.lor mask (mask_of ts)) (parse_profiles rest).
Proof.
  induction 1 as [w t Hw | w t d0 s ts Hw Hd0 Hs IH];
    intros d rest fuel mask Hd Hfuel;
    (destruct fuel as [|fuel]; [lia|]).
  - rewrite (profiles_loop_token fuel w t d rest mask Hw Hd).
    cbn [mask_of fold_right]. rewrite Z.lor_0_r.
    apply profiles_loop_from.
    rewrite length_app in Hfuel. cbn [length] in Hfuel. lia.
  - rewrite <- app_assoc. cbn [app].
    rewrite (profiles_loop_token fuel w t d0 _ mask Hw Hd0).
    rewrite IH; [|exact Hd|].
    + cbn [mask_of fold_right]. now rewrite Z.lor_assoc.
    + rewrite !length_app in *. cbn [length] in *.
      rewrite ?length_app in Hfuel. cbn [length] in Hfuel. lia.
Qed.

(** X2: parsing composes over a delimiter.  Behind a profile spec and one
    delimiter the loop goes on with what follows as if it were a string
    of its own: the whole is rejected when the remainder is, and otherwise
    its mask is the or of the two masks. *)
Theorem profiles_compose (s : cstring) (ts : list token) (d : ascii)
    (rest : cstring) :
  profile_spec s ts -> delimiter d ->
  parse_profiles (s ++ d :: rest)
  = or_into (mask_of ts) (parse_profiles rest).
Proof.
  intros Hs Hd. unfold parse_profiles at 1.
  rewrite (profiles_loop_prefix s ts Hs d rest _ 0 Hd) by lia.
  reflexivity.
Qed.

Lemma profiles_compose_witness :
  profile_spec (lit "AVP") [ {| secure := false; feedback := false |} ]
  /\ delimiter ","
  /\ parse_profiles (lit "AVP" ++ ","%char :: lit "savpf;AVPF")
     = or_into GST_RTSP_PROFILE_AVP (parse_profiles (lit "savpf;AVPF")).
Proof.
  assert (profile_spec (lit "AVP")
            [ {| secure := false; feedback := false |} ]) as H
    by (apply spec_last; reflexivity).
  assert (delimiter ",") as D by (split; [reflexivity | discriminate]).
  split; [exact H | split; [exact D|]].
  exact (profiles_compose _ _ _ (lit "savpf;AVPF") H D).
Defined.

(** ** The strings the loop accepts *)

Lemma profiles_loop_language (fuel : nat) :
  forall u mask m,
    c_string u ->
    profiles_loop fuel u 0 mask = Mask m ->
    (u = [] /\ m = mask)
    \/ exists ts,
         m = Z.lor mask (mask_of ts)
         /\ (profile_spec u ts
             \/ exists s d, u = s ++ [d] /\ delimiter d /\ profile_spec s ts).
Proof.
  induction fuel as [|fuel IH]; intros u mask m Hu Hm; [discriminate|].
  destruct (profiles_loop_accepts fuel u mask m Hu Hm)
    as [-> | (w & t & Hw & [-> | (d & rest & -> & Hd & Hrest)])].
  - left. split; [reflexivity|]. cbn in Hm. congruence.
  - right. exists [t]. rewrite (profiles_loop_last fuel w t mask Hw) in Hm.
    split; [cbn; rewrite Z.lor_0_r; congruence|].
    left. now apply spec_last.
  - right. apply c_string_app in Hu as [_ Hu].
    assert (delimiter d) as D by (split; [exact Hd | now inversion Hu]).
    assert (c_string rest) as Hr by now inversion Hu.
    destruct (IH rest _ m Hr Hrest)
      as [[-> ->] | (ts & -> & [Hs | (s & d' & -> & Hd' & Hs)])].
    + exists [t]. split; [cbn; now rewrite Z.lor_0_r|].
      right. exists w, d. repeat split; try apply D. now apply spec_last.
    + exists (t :: ts). split; [cbn; now rewrite Z.lor_assoc|].
      left. now apply spec_more.
    + exists (t :: ts). split; [cbn; now rewrite Z.lor_assoc|].
      right. exists (w ++ d :: s), d'.
      split; [now rewrite <- app_assoc|]. split; [exact Hd'|].
      now apply spec_more.
Qed.

(** X3: the strings the loop accepts, and nothing else: the empty string
    with mask 0, and the profile specs, with or without one more delimiter
    at the end, with the or of their tokens' flags. *)
Theorem profiles_accepted_language (s : cstring) (m : Z) :
  c_string s ->
  (parse_profiles s = Mask m <->
   (s = [] /\ m = 0)
   \/ exists ts,
        m = mask_of ts
        /\ (profile_spec s ts
            \/ exists s' d,
                 s = s' ++ [d] /\ delimiter d /\ profile_spec s' ts)).
Proof.
  intros Hs. split.
  - intros H. apply (profiles_loop_language _ s 0 m Hs H).
  - intros [[-> ->] | (ts & -> & [H | (s' & d & -> & Hd & H)])].
    + reflexivity.
    + unfold parse_profiles. rewrite <- (app_nil_r s).
      rewrite (profiles_loop_spec s ts H [] _ 0); [reflexivity | now left |].
      rewrite app_nil_r. lia.
    + unfold parse_profiles.
      rewrite (profiles_loop_spec s' ts H [d] _ 0); [reflexivity | | lia].
      right. now exists d.
Qed.

Lemma profiles_accepted_language_witness :
  c_string (lit "AVP;")
  /\ parse_profiles (lit "AVP;") = Mask 1
  /\ ((lit "AVP;" = [] /\ 1 = 0)
      \/ exists ts,
           1 = mask_of ts
           /\ (profile_spec (lit "AVP;") ts
               \/ exists s' d,
                    lit "AVP;" = s' ++ [d] /\ delimiter d
                    /\ profile_spec s' ts)).
Proof.
  assert (c_string (lit "AVP;")) as H
    by (repeat constructor; discriminate).
  split; [exact H|]. split; [reflexivity|].
  exact (proj1 (profiles_accepted_language (lit "AVP;") 1 H) eq_refl).
Defined.

Lemma leading_delimiter (fuel : nat) (d : ascii) (rest : cstring) (mask : Z) :
  delimiter d -> profiles_loop (S fuel) (d :: rest) 0 mask = BadProfiles.
Proof.
  intros [Hd Hn]. rewrite profiles_loop_eq.
  change (deref (d :: rest) 0) with d.
  replace (is_nul d) with false by (symmetry; now apply is_nul_false).
  rewrite parseProfile_plain
    by (apply not_alnum_unlike; [exact Hd | reflexivity]).
  assert (avp (d :: rest) = false) as ->; [|reflexivity].
  destruct rest as [|v [|p rest]]; try reflexivity.
  cbn [avp]. now rewrite (not_alnum_unlike "A" d Hd eq_refl).
Qed.

(** X4: a delimiter where a token has to begin is an error: a string that
    begins with a delimiter is rejected, and so is a profile spec followed
    by two delimiters in a row, whatever comes after them. *)
Theorem stray_delimiter_rejected (d : ascii) (rest : cstring) :
  delimiter d ->
  parse_profiles (d :: rest) = BadProfiles
  /\ forall s ts d1,
       profile_spec s ts -> delimiter d1 ->
       parse_profiles (s ++ d1 :: d :: rest) = BadProfiles.
Proof.
  intros Hd. split.
  - now apply leading_delimiter.
  - intros s ts d1 Hs Hd1. unfold parse_profiles at 1.
    rewrite (profiles_loop_prefix s ts Hs d1 (d :: rest) _ 0 Hd1) by lia.
    unfold parse_profiles. now rewrite (leading_delimiter _ d rest 0 Hd).
Qed.

Lemma stray_delimiter_rejected_witness :
  delimiter "+"
  /\ parse_profiles ("+"%char :: lit "AVP") = BadProfiles
  /\ parse_profiles (lit "AVP" ++ "+"%char :: "+"%char :: lit "AVPF")
     = BadProfiles.
Proof.
  assert (delimiter "+") as D by (split; [reflexivity | discriminate]).
  destruct (stray_delimiter_rejected "+" (lit "AVP") D) as [L _].
  destruct (stray_delimiter_rejected "+" (lit "AVPF") D) as [_ R].
  split; [exact D | split; [exact L|]].
  apply (R (lit "AVP") [ {| secure := false; feedback := false |} ] "+"%char);
    [apply spec_last; reflexivity | exact D].
Defined.

(** ** The bits of the mask *)

Lemma bit_inj (t t' : token) : bit t = bit t' -> t = t'.
Proof. destruct t as [[|] [|]], t' as [[|] [|]]; cbn; congruence. Qed.

Lemma testbit_flag (t : token) (k : Z) :
  0 <= k -> Z.testbit (flag t) k = (bit t =? k).
Proof.
  intros Hk. rewrite flag_bit, Z.shiftl_1_l. fold (bit t).
  apply Z.pow2_bits_eqb. destruct t as [[|] [|]]; cbn; lia.
Qed.

Lemma testbit_mask_of (ts : list token) (k : Z) :
  0 <= k ->
  Z.testbit (mask_of ts) k = existsb (fun t => bit t =? k) ts.
Proof.
  intros Hk. induction ts as [|t ts IH]; cbn [mask_of fold_right existsb].
  - apply Z.testbit_0_l.
  - rewrite Z.lor_spec, testbit_flag by exact Hk. f_equal. exact IH.
Qed.

Lemma bit_nonneg (t : token) : 0 <= bit t.
Proof. destruct t as [[|] [|]]; cbn; lia. Qed.

Lemma parse_profile_spec (s : cstring) (ts : list token) :
  profile_spec s ts -> parse_profiles s = Mask (mask_of ts).
Proof.
  intros H. unfold parse_profiles. rewrite <- (app_nil_r s).
  rewrite (profiles_loop_spec s ts H [] _ 0); [reflexivity | now left |].
  rewrite app_nil_r. lia.
Qed.

(** X5: in the mask of a profile spec the bit of a profile is set exactly
    when the profile is named in the spec, and no other bit is set. *)
Theorem mask_bits_name_tokens (s : cstring) (ts : list token) :
  profile_spec s ts ->
  exists m,
    parse_profiles s = Mask m
    /\ (forall t, Z.testbit m (bit t) = true <-> In t ts)
    /\ (forall k, 4 <= k -> Z.testbit m k = false).
Proof.
  intros H. exists (mask_of ts). split; [now apply parse_profile_spec|].
  split.
  - intros t. rewrite testbit_mask_of by apply bit_nonneg.
    rewrite existsb_exists. split.
    + intros (t' & Hin & E). apply Z.eqb_eq, bit_inj in E. now subst.
    + intros Hin. exists t. split; [exact Hin | apply Z.eqb_refl].
  - intros k Hk. rewrite testbit_mask_of by lia.
    destruct (existsb _ ts) eqn:E; [|reflexivity].
    apply existsb_exists in E as (t & _ & E). apply Z.eqb_eq in E.
    destruct t as [[|] [|]]; cbn in E; lia.
Qed.

Lemma mask_bits_name_tokens_witness :
  profile_spec (lit "avp")
    [ {| secure := false; feedback := false |} ]
  /\ exists m,
       parse_profiles (lit "avp") = Mask m
       /\ (forall t,
             Z.testbit m (bit t) = true
             <-> In t [ {| secure := false; feedback := false |} ])
       /\ (forall k, 4 <= k -> Z.testbit m k = false).
Proof.
  assert (profile_spec (lit "avp")
            [ {| secure := false; feedback := false |} ]) as H
    by (apply spec_last; reflexivity).
  split; [exact H|].
  exact (mask_bits_name_tokens _ _ H).
Defined.

(** X6: neither the order of the tokens nor a repetition changes the mask:
    two profile specs that name the same profiles parse to the same
    mask. *)
Theorem mask_ignores_order (s1 s2 : cstring) (ts1 ts2 : list token) :
  profile_spec s1 ts1 -> profile_spec s2 ts2 ->
  (forall t, In t ts1 <-> In t ts2) ->
  parse_profiles s1 = parse_profiles s2.
Proof.
  intros H1 H2 Hsame.
  rewrite (parse_profile_spec s1 ts1 H1), (parse_profile_spec s2 ts2 H2).
  f_equal. apply Z.bits_inj'. intros k Hk.
  rewrite !testbit_mask_of by exact Hk.
  apply eq_true_iff_eq. rewrite !existsb_exists.
  split; intros (t & Hin & E); exists t; (split; [now apply Hsame | exact E]).
Qed.

Lemma mask_ignores_order_witness :
  parse_profiles (lit "AVPF+avp+AVPF") = parse_profiles (lit "AVP,avpf").
Proof.
  apply (mask_ignores_order _ _
           [ {| secure := false; feedback := true |};
             {| secure := false; feedback := false |};
             {| secure := false; feedback := true |} ]
           [ {| secure := false; feedback := false |};
             {| secure := false; feedback := true |} ]).
  - apply (spec_more (lit "AVPF") _ "+"%char);
      [reflexivity | split; [reflexivity | discriminate] |].
    apply (spec_more (lit "avp") _ "+"%char);
      [reflexivity | split; [reflexivity | discriminate] |].
    apply spec_last. reflexivity.
  - apply (spec_more (lit "AVP") _ ","%char);
      [reflexivity | split; [reflexivity | discriminate] |].
    apply spec_last. reflexivity.
  - intros t. cbn. tauto.
Defined.

(** ** The range of the mask *)

Lemma lor_flag_range (a : Z) (t : token) :
  0 <= a <= 15 -> 0 <= Z.lor a (flag t) <= 15.
Proof.
  intros H.
  assert (In a [0; 1; 2; 3; 4; 5; 6; 7; 8; 9; 10; 11; 12; 13; 14; 15]) as Ha
    by (cbn; lia).
  cbn in Ha.
  destruct t as [[|] [|]];
    repeat (destruct Ha as [<- | Ha]; [cbn; lia|]); contradiction.
Qed.

Lemma lor_flag_not_0 (a : Z) (t : token) : Z.lor a (flag t) <> 0.
Proof.
  intros H. apply Z.lor_eq_0_iff in H as [_ H]. now apply flag_not_0 in H.
Qed.

Lemma profiles_loop_range (fuel : nat) :
  forall u mask m,
    profiles_loop fuel u 0 mask = Mask m ->
    0 <= mask <= 15 ->
    0 <= m <= 15
    /\ (m = 0 -> mask = 0 /\ deref u 0 = NUL).
Proof.
  induction fuel as [|fuel IH]; intros u mask m Hm Hmask; [discriminate|].
  rewrite profiles_loop_eq in Hm.
  destruct (is_nul (deref u 0)) eqn:N.
  - injection Hm as <-. apply is_nul_true in N. now repeat split.
  - destruct (parseProfile u 0 0) as [c p] eqn:E.
    destruct (p =? 0) eqn:P; [discriminate|]. apply Z.eqb_neq in P.
    destruct (parseProfile_recognized u) as (w & t & rest & _ & _ & Ep & _);
      [now rewrite E|].
    rewrite E in Ep. injection Ep as -> ->.
    pose proof (lor_flag_range mask t Hmask) as R.
    destruct (is_nul (deref u (length w))).
    + injection Hm as <-. split; [exact R|].
      intros Z0. now apply lor_flag_not_0 in Z0.
    + destruct (isalnum (deref u (length w))); [discriminate|].
      destruct (IH _ _ _ Hm R) as [R' Z']. split; [exact R'|].
      intros Z0. destruct (Z' Z0) as [Z1 _]. now apply lor_flag_not_0 in Z1.
Qed.

(** X7: a mask the loop hands to the factory is made of the four profile
    bits, and it is 0 only when the string is empty: a string that is
    accepted and not empty always selects a profile. *)
Theorem accepted_mask_range (s : cstring) (m : Z) :
  parse_profiles s = Mask m ->
  0 <= m <= 15 /\ (m = 0 <-> deref s 0 = NUL).
Proof.
  intros H. destruct (profiles_loop_range _ s 0 m H ltac:(lia)) as [R Z0].
  split; [exact R|]. split.
  - intros E. now apply Z0.
  - intros E. unfold parse_profiles in H. rewrite profiles_loop_eq in H.
    rewrite E in H. cbn in H. congruence.
Qed.

Lemma accepted_mask_range_witness :
  parse_profiles (lit "savp-SAVPF") = Mask 10
  /\ 0 <= 10 <= 15
  /\ (10 = 0 <-> deref (lit "savp-SAVPF") 0 = NUL).
Proof.
  assert (parse_profiles (lit "savp-SAVPF") = Mask 10) as H by reflexivity.
  split; [exact H|].
  exact (accepted_mask_range _ _ H).
Defined.

(** ** Where parseProfile leaves the cursor *)

Lemma parseProfile_result (s : cstring) (base : nat) (r : Z) :
  parseProfile s base r
  = (fst (parseProfile s base 0), Z.lor r (snd (parseProfile s base 0))).
Proof.
  unfold parseProfile.
  destruct (Ascii.eqb (toupper (deref s base)) "S");
    (destruct (negb (strncasecmp _ (lit "AVP") 3 =? 0));
     [cbn; now rewrite Z.lor_0_r|]);
    destruct (Ascii.eqb (toupper (deref s _)) "F"); reflexivity.
Qed.

Lemma parseProfile_unrecognized (u : cstring) :
  snd (parseProfile u 0 0) = 0 ->
  fst (parseProfile u 0 0) = O
  \/ (fst (parseProfile u 0 0) = 1%nat /\ like "S" (deref u 0) = true).
Proof.
  destruct u as [|a u]; [now left|].
  destruct (like "S" a) eqn:HS.
  - rewrite parseProfile_secure by assumption.
    destruct (avp u); [|now right].
    destruct (like "F" (deref u 3)); discriminate.
  - rewrite parseProfile_plain by assumption.
    destruct (avp (a :: u)); [|now left].
    destruct (like "F" (deref (a :: u) 3)); discriminate.
Qed.

Lemma alnum_not_nul (c : ascii) : isalnum c = true -> c <> NUL.
Proof. intros H ->. discriminate H. Qed.

Lemma forallb_nth (w : cstring) :
  forallb isalnum w = true ->
  forall k, (k < length w)%nat -> isalnum (deref w k) = true.
Proof.
  induction w as [|c w IH]; intros H k Hk; cbn in *; [lia|].
  apply andb_prop in H as [Hc Hw]. destruct k as [|k]; [exact Hc|].
  apply IH; [exact Hw | lia].
Qed.

(** X8: [parseProfile] moves the cursor by 0 or 1 and leaves [*result] as
    it was when it recognises nothing, and otherwise moves it by the
    length of a profile name that stands at [base] in some mix of case
    and ors that profile's flag into [*result].  From a [base] inside the
    string the cursor it returns is never behind the terminator. *)
Theorem parseProfile_cursor (s : cstring) (base : nat) (r : Z) :
  ((snd (parseProfile s base r) = r
    /\ (base <= fst (parseProfile s base r) <= base + 1)%nat)
   \/ exists t,
        snd (parseProfile s base r) = Z.lor r (flag t)
        /\ fst (parseProfile s base r)
           = (base + length (token_name t))%nat
        /\ spells (firstn (length (token_name t)) (at_offset s base)) t)
  /\ ((base <= strlen s)%nat ->
      (fst (parseProfile s base r) <= strlen s)%nat).
Proof.
  rewrite parseProfile_result, parseProfile_shift. cbn [fst snd].
  set (u := at_offset s base).
  destruct (Z.eq_dec (snd (parseProfile u 0 0)) 0) as [E | E].
  - rewrite E, Z.lor_0_r. split.
    + left. split; [reflexivity|].
      destruct (parseProfile_unrecognized u E) as [-> | [-> _]]; lia.
    + intros Hb.
      destruct (parseProfile_unrecognized u E) as [-> | [-> HS]]; [lia|].
      apply strlen_bound. intros k Hk.
      destruct (Nat.lt_ge_cases k base) as [L|L];
        [apply before_strlen; lia|].
      assert (k = base) as -> by lia.
      subst u. rewrite deref_at_offset, Nat.add_0_r in HS.
      apply alnum_not_nul. now apply (like_alnum "S").
  - destruct (parseProfile_recognized u E)
      as (w & t & rest & Eu & Hw & Ep & _).
    rewrite Ep. cbn [fst snd].
    assert (length w = length (token_name t)) as L
      by (rewrite <- Hw; symmetry; apply length_map).
    split.
    + right. exists t. repeat split; [now rewrite L|].
      rewrite Eu, <- L, firstn_app, firstn_all, Nat.sub_diag. cbn.
      now rewrite app_nil_r.
    + intros Hb. apply strlen_bound. intros k Hk.
      destruct (Nat.lt_ge_cases k base) as [Lt|Ge];
        [apply before_strlen; lia|].
      replace k with (base + (k - base))%nat by lia.
      rewrite <- deref_at_offset. fold u. rewrite Eu.
      unfold deref. rewrite app_nth1 by lia.
      apply alnum_not_nul.
      apply (forallb_nth w (spells_alnum _ _ Hw)). lia.
Qed.

Lemma parseProfile_cursor_witness :
  (4 <= strlen (lit "AVP+savpf"))%nat
  /\ (fst (parseProfile (lit "AVP+savpf") 4 1) <= strlen (lit "AVP+savpf"))%nat
  /\ parseProfile (lit "AVP+savpf") 4 1 = (9%nat, 9).
Proof.
  assert (4 <= strlen (lit "AVP+savpf"))%nat as H by (cbn; lia).
  split; [exact H|]. split; [|reflexivity].
  exact (proj2 (parseProfile_cursor (lit "AVP+savpf") 4 1) H).
Defined.

(** ** More on the retransmission time *)

Lemma deref_cons (c : ascii) (s : cstring) (k : nat) :
  deref (c :: s) (S k) = deref s k.
Proof. reflexivity. Qed.

Lemma at_offset_cons (c : ascii) (s : cstring) (k : nat) :
  at_offset (c :: s) (S k) = at_offset s k.
Proof. reflexivity. Qed.

(** Behind one more character in front, [strtoull] does what it does on
    the string itself, one place further on, when that character is white
    space. *)
Lemma strtoull_space (c : ascii) (s : cstring) :
  isspace c = true ->
  strtoull (c :: s) 0
  = (fst (strtoull s 0),
     match snd (strtoull s 0) with O => O | S e => S (S e) end).
Proof.
  intros Hc. unfold strtoull. cbn [count_space]. rewrite Hc.
  rewrite !deref_cons.
  destruct (Ascii.eqb (deref s (count_space s)) "-"
            || Ascii.eqb (deref s (count_space s)) "+");
    rewrite !deref_cons;
    match goal with
    | |- context [?a && ((0 =? 0) || (0 =? 16)) && ?b] =>
        destruct (a && ((0 =? 0) || (0 =? 16)) && b)
    end;
    rewrite !at_offset_cons;
    match goal with
    | |- context [digits ?b ?u 0 0] => destruct (digits b u 0 0) as [v [|n]]
    end;
    cbn [fst snd]; rewrite ?Nat.add_succ_r; cbn [Nat.add fst snd];
    reflexivity.
Qed.

(** X9: white space in front of the retransmission time is skipped: with
    any number of blanks, tabs or line breaks before it the string is
    rejected or accepted as without them, with the same value. *)
Theorem leading_space_ignored (ws s : cstring) :
  forallb isspace ws = true ->
  parse_retransmitTime (ws ++ s) = parse_retransmitTime s.
Proof.
  induction ws as [|c ws IH]; intros H; [reflexivity|].
  cbn [forallb] in H. apply andb_prop in H as [Hc Hws].
  rewrite <- (IH Hws). cbn [app].
  unfold parse_retransmitTime. rewrite (strtoull_space c _ Hc).
  destruct (strtoull (ws ++ s) 0) as [v [|e]]; cbn [fst snd].
  - now rewrite !orb_true_r.
  - now rewrite deref_cons.
Qed.

Lemma leading_space_ignored_witness :
  forallb isspace (lit "  ") = true
  /\ parse_retransmitTime (lit "  " ++ lit "150")
     = parse_retransmitTime (lit "150").
Proof.
  assert (forallb isspace (lit "  ") = true) as H by reflexivity.
  split; [exact H|].
  exact (leading_space_ignored _ (lit "150") H).
Defined.

Lemma strtoull_signed (sign d : ascii) (s : cstring) :
  isdigit d = true ->
  sign = "-"%char \/ sign = "+"%char ->
  (exists e,
     strtoull (d :: s) 0 = (0, e)
     /\ (e = O \/ (e = 1%nat /\ deref s 0 <> NUL)))
  \/ (exists v n,
        strtoull (d :: s) 0
        = (if ULLONG_MAX <? v then ULLONG_MAX else v, S n)
        /\ strtoull (sign :: d :: s) 0
           = (if ULLONG_MAX <? v then ULLONG_MAX
              else if Ascii.eqb sign "-" then (2 ^ 64 - v) mod 2 ^ 64
              else v,
              S (S n))).
Proof.
  intros Hd Hsign.
  destruct (isdigit_facts d Hd) as (Hsp & Hminus & Hplus & _ & _).
  assert (isspace sign = false) as Hs1
    by (destruct Hsign as [-> | ->]; reflexivity).
  assert (Ascii.eqb sign "-" || Ascii.eqb sign "+" = true) as Hs2
    by (destruct Hsign as [-> | ->]; reflexivity).
  unfold strtoull. cbn [count_space]. rewrite Hsp, Hs1.
  change (deref (d :: s) 0) with d. change (deref (sign :: d :: s) 0) with sign.
  rewrite Hminus, Hplus, Hs2. cbn [orb]. cbv iota.
  rewrite !deref_cons. change (deref (d :: s) 0) with d.
  match goal with
  | |- context [?a && ((0 =? 0) || (0 =? 16)) && ?b] =>
      destruct (a && ((0 =? 0) || (0 =? 16)) && b) eqn:P
  end.
  - change (at_offset (sign :: d :: s) 3) with (at_offset (d :: s) 2).
    destruct (digits 16 (at_offset (d :: s) 2) 0 0) as [v [|n]].
    + left. exists 1%nat. split; [reflexivity|]. right. split; [reflexivity|].
      apply andb_prop in P as [_ P]. intros E. rewrite E in P.
      discriminate P.
    + right. exists v, (S (S n)). split; reflexivity.
  - change (at_offset (sign :: d :: s) 1) with (at_offset (d :: s) 0).
    match goal with
    | |- context [digits ?b ?u 0 0] => destruct (digits b u 0 0) as [v [|n]]
    end.
    + left. exists O. split; [reflexivity | now left].
    + right. exists v, n. split; reflexivity.
Qed.

(** X10: a sign in front of the digits is accepted.  When the string is
    accepted with value [v], it is accepted with the same value behind a
    plus sign, and behind a minus sign with [v] negated in [guint64], that
    is 2^64 - v for a [v] that is not 0. *)
Theorem signed_retransmission_time (s : cstring) (v : Z) :
  isdigit (deref s 0) = true ->
  parse_retransmitTime s = Some v ->
  parse_retransmitTime ("+"%char :: s) = Some v
  /\ (v < ULLONG_MAX ->
      parse_retransmitTime ("-"%char :: s) = Some ((2 ^ 64 - v) mod 2 ^ 64)).
Proof.
  intros Hd Hv. destruct s as [|d s]; [discriminate Hd|].
  change (deref (d :: s) 0) with d in Hd.
  split.
  - destruct (strtoull_signed "+" d s Hd (or_intror eq_refl))
      as [(e & E & He) | (v0 & n & E & E')];
      unfold parse_retransmitTime in *; rewrite E in Hv.
    + destruct He as [-> | [-> He]].
      * now rewrite orb_true_r in Hv.
      * rewrite deref_cons in Hv. apply is_nul_false in He.
        rewrite He in Hv. discriminate Hv.
    + rewrite E'. rewrite deref_cons.
      destruct (is_nul (deref (d :: s) (S n)));
        cbn [negb orb Nat.eqb] in Hv |- *; [|discriminate Hv].
      change (Ascii.eqb "+" "-") with false. exact Hv.
  - intros Hlt.
    destruct (strtoull_signed "-" d s Hd (or_introl eq_refl))
      as [(e & E & He) | (v0 & n & E & E')];
      unfold parse_retransmitTime in *; rewrite E in Hv.
    + destruct He as [-> | [-> He]].
      * now rewrite orb_true_r in Hv.
      * rewrite deref_cons in Hv. apply is_nul_false in He.
        rewrite He in Hv. discriminate Hv.
    + rewrite E'. rewrite deref_cons.
      destruct (is_nul (deref (d :: s) (S n)));
        cbn [negb orb Nat.eqb] in Hv |- *; [|discriminate Hv].
      injection Hv as Hv.
      destruct (ULLONG_MAX <? v0) eqn:O; [lia|].
      change (Ascii.eqb "-" "-") with true. cbv iota. now subst.
Qed.

Lemma signed_retransmission_time_witness :
  isdigit (deref (lit "150") 0) = true
  /\ parse_retransmitTime (lit "150") = Some 150
  /\ parse_retransmitTime (lit "+150") = Some 150
  /\ parse_retransmitTime (lit "-150") = Some (2 ^ 64 - 150).
Proof.
  assert (isdigit (deref (lit "150") 0) = true) as H1 by reflexivity.
  assert (parse_retransmitTime (lit "150") = Some 150) as H2 by reflexivity.
  destruct (signed_retransmission_time (lit "150") 150 H1 H2) as [P M].
  split; [exact H1 | split; [exact H2 | split; [exact P|]]].
  exact (M ltac:(vm_compute; reflexivity)).
Defined.

Lemma digits_numeral (base : Z) (s : cstring) :
  forall acc n,
    forallb (digit_of base) s = true ->
    digits base s acc n
    = (fold_left
         (fun a c =>
            a * base + match digit_value c with Some d => d | None => 0 end)
         s acc,
       (n + length s)%nat).
Proof.
  induction s as [|c s IH]; intros acc n H; cbn in *.
  - f_equal. lia.
  - apply andb_prop in H as [Hc Hs]. unfold digit_of in Hc.
    destruct (digit_value c) as [d|]; [|discriminate Hc].
    rewrite Hc, IH by assumption. f_equal. lia.
Qed.

Lemma octal_not_x (s : cstring) :
  forallb (digit_of 8) s = true ->
  Ascii.eqb (toupper (deref s 0)) "X" = false.
Proof.
  destruct s as [|c s]; [reflexivity|]. cbn [forallb].
  intros H. apply andb_prop in H as [H _]. change (deref (c :: s) 0) with c.
  revert H. clear. each_char c.
Qed.

(** X11: base 0 makes the prefix choose the base.  Behind 0x or 0X a
    non-empty string of hexadecimal digits is accepted with its value in
    base 16, and behind a leading 0 a string of the digits 0 to 7 with its
    value in base 8; a value that does not fit is [ULLONG_MAX]. *)
Theorem prefixed_retransmission_time (s : cstring) :
  (s <> [] -> forallb (digit_of 16) s = true ->
   forall x, toupper x = "X"%char ->
   parse_retransmitTime ("0"%char :: x :: s)
   = Some (Z.min (numeral 16 s) ULLONG_MAX))
  /\ (forallb (digit_of 8) s = true ->
      parse_retransmitTime ("0"%char :: s)
      = Some (Z.min (numeral 8 s) ULLONG_MAX)).
Proof.
  split.
  - intros Hne Hs x Hx.
    unfold parse_retransmitTime, strtoull. cbn [count_space].
    change (isspace "0") with false. cbv iota.
    change (deref ("0"%char :: x :: s) 0) with "0"%char.
    change (Ascii.eqb "0" "-") with false.
    change (Ascii.eqb "0" "+") with false. cbn [orb]. cbv iota.
    change (deref ("0"%char :: x :: s) 0) with "0"%char.
    change (deref ("0"%char :: x :: s) 1) with x. rewrite Hx.
    change (Ascii.eqb "0" "0") with true. change (Ascii.eqb "X" "X") with true.
    change (0 =? 0) with true. cbn [orb andb]. cbv iota.
    change (at_offset ("0"%char :: x :: s) 2) with s.
    rewrite (digits_numeral 16 s 0 0 Hs). fold (numeral 16 s).
    destruct s as [|c s]; [congruence|]. cbn [length Nat.add].
    change (deref ("0"%char :: x :: c :: s) (S (S (S (length s)))))
      with (deref s (length s)).
    rewrite deref_end by lia. change (is_nul NUL) with true.
    cbn [negb orb Nat.eqb]. f_equal.
    destruct (Z.ltb_spec ULLONG_MAX (numeral 16 (c :: s))); lia.
  - intros Hs.
    unfold parse_retransmitTime, strtoull. cbn [count_space].
    change (isspace "0") with false. cbv iota.
    change (deref ("0"%char :: s) 0) with "0"%char.
    change (Ascii.eqb "0" "-") with false.
    change (Ascii.eqb "0" "+") with false. cbn [orb]. cbv iota.
    change (deref ("0"%char :: s) 0) with "0"%char.
    change (deref ("0"%char :: s) 1) with (deref s 0).
    rewrite (octal_not_x s Hs), andb_false_r. cbv iota.
    change (Ascii.eqb "0" "0") with true. change (0 =? 0) with true.
    cbv iota. change (at_offset ("0"%char :: s) 0) with ("0"%char :: s).
    rewrite (digits_numeral 8 ("0"%char :: s) 0 0)
      by (cbn [forallb]; now rewrite Hs).
    cbn [length Nat.add fold_left].
    change (0 * 8 + match digit_value "0" with Some d => d | None => 0 end)
      with 0.
    fold (numeral 8 s).
    change (deref ("0"%char :: s) (S (length s))) with (deref s (length s)).
    rewrite deref_end by lia. change (is_nul NUL) with true.
    cbn [negb orb Nat.eqb]. f_equal.
    destruct (Z.ltb_spec ULLONG_MAX (numeral 8 s)); lia.
Qed.

Lemma prefixed_retransmission_time_witness :
  (lit "fa" <> [] /\ forallb (digit_of 16) (lit "fa") = true
   /\ toupper "x" = "X"%char /\ forallb (digit_of 8) (lit "17") = true)
  /\ parse_retransmitTime (lit "0xfa") = Some 250
  /\ parse_retransmitTime (lit "017") = Some 15.
Proof.
  assert (lit "fa" <> []) as H1 by discriminate.
  assert (forallb (digit_of 16) (lit "fa") = true) as H2 by reflexivity.
  assert (toupper "x" = "X"%char) as H3 by reflexivity.
  assert (forallb (digit_of 8) (lit "17") = true) as H4 by reflexivity.
  split; [now repeat split|]. split.
  - exact (proj1 (prefixed_retransmission_time (lit "fa")) H1 H2 "x"%char H3).
  - exact (proj2 (prefixed_retransmission_time (lit "17")) H4).
Defined.

(** ** More runs of main *)

(** Unfold [main] down to its tests and decide them one by one. *)
Ltac open_main :=
  unfold main, finish, bind, call, ret, return_, halt, if_set,
    g_option_context_parse, gst_rtsp_server_attach, g_main_loop_run,
    gst_rtsp_media_factory_get_launch.

Ltac decide_next :=
  match goal with
  | |- context [parse_options ?v ?f ?e ?u ?g0] =>
      destruct (parse_options v f e u g0) as [?g| |] eqn:?
  | |- context [argv_1 ?c] => destruct (argv_1 c) as [?launch|] eqn:?
  | |- context [profiles ?g] => destruct (profiles g) as [?p|] eqn:?
  | |- context [parse_profiles ?p] =>
      pose proof (parse_profiles_total p);
      destruct (parse_profiles p) as [?m| |] eqn:?; [| |congruence]
  | |- context [retransmitTime ?g] =>
      destruct (retransmitTime g) as [?r|] eqn:?
  | |- context [parse_retransmitTime ?r] =>
      destruct (parse_retransmitTime r) as [?ms|] eqn:?
  | |- context [20 <=? ?v] => destruct (20 <=? v) eqn:?
  | |- context [attach_id ?e =? 0] => destruct (attach_id e =? 0) eqn:?
  | |- context [loop_quits ?e] => destruct (loop_quits e) eqn:?
  end.

Ltac by_cases := open_main; repeat decide_next; cbn.

Section MoreRuns.

Variable GST_VERSION_MINOR : Z.
Variable store_past_mount : cstring -> globals -> globals.

(** X12: a profile spec or a retransmission time that is rejected is
    found out only after the server, its mount table and the factory have
    been created: a run that returns 3 or 4 has made those calls, has
    written one message to standard error, and has neither mounted the
    factory nor attached the server. *)
Theorem rejected_after_construction (cmd : command_line) (env : environment) :
  result (main GST_VERSION_MINOR store_past_mount cmd env) = Returns 3
  \/ result (main GST_VERSION_MINOR store_past_mount cmd env) = Returns 4 ->
  In gst_rtsp_server_new
    (trace (main GST_VERSION_MINOR store_past_mount cmd env))
  /\ In gst_rtsp_server_get_mount_points
       (trace (main GST_VERSION_MINOR store_past_mount cmd env))
  /\ In gst_rtsp_media_factory_new
       (trace (main GST_VERSION_MINOR store_past_mount cmd env))
  /\ length (stderr (trace (main GST_VERSION_MINOR store_past_mount cmd env)))
     = 1%nat
  /\ mount_table (trace (main GST_VERSION_MINOR store_past_mount cmd env)) = []
  /\ existsb attaches
       (trace (main GST_VERSION_MINOR store_past_mount cmd env)) = false.
Proof.
  by_cases; intros [Hr | Hr]; try discriminate Hr; repeat split; tauto.
Qed.

(** X13: when the server does not attach, [main] returns 6 with the
    factory already mounted; it has said so on standard output, not on
    standard error, and has neither scheduled the session clean-up nor
    entered the main loop. *)
Theorem attach_failure (cmd : command_line) (env : environment) :
  result (main GST_VERSION_MINOR store_past_mount cmd env) = Returns 6 ->
  attach_id env = 0
  /\ length (mount_table
               (trace (main GST_VERSION_MINOR store_past_mount cmd env)))
     = 1%nat
  /\ last (stdout (trace (main GST_VERSION_MINOR store_past_mount cmd env))) []
     = lit "failed to attach the server" ++ nl
  /\ stderr (trace (main GST_VERSION_MINOR store_past_mount cmd env)) = []
  /\ existsb schedules
       (trace (main GST_VERSION_MINOR store_past_mount cmd env)) = false
  /\ existsb runs_loop
       (trace (main GST_VERSION_MINOR store_past_mount cmd env)) = false.
Proof.
  by_cases; intros Hr; try discriminate Hr;
    (split; [now apply Z.eqb_eq|]); repeat split.
Qed.

(** X14: in no run is the factory changed after it was mounted, and in no
    run is more than one factory mounted. *)
Theorem factory_frozen_once_mounted (cmd : command_line) (env : environment) :
  configured_before_mount false
    (trace (main GST_VERSION_MINOR store_past_mount cmd env)) = true
  /\ (length (mount_table
                (trace (main GST_VERSION_MINOR store_past_mount cmd env)))
      <= 1)%nat.
Proof.
  split; by_cases; solve [reflexivity | lia].
Qed.

(** X15: whenever a factory is mounted, its launch line is [argv[1]] as it
    was given, it is shared, and the launch line has been echoed on
    standard output behind "Pipeline: ". *)
Theorem mounted_factory (cmd : command_line) (env : environment) :
  mount_table (trace (main GST_VERSION_MINOR store_past_mount cmd env)) <> [] ->
  exists launch,
    argv_1 cmd = Some launch
    /\ pipelineDescription
         (factory_config
            (trace (main GST_VERSION_MINOR store_past_mount cmd env)))
       = Some launch
    /\ shared
         (factory_config
            (trace (main GST_VERSION_MINOR store_past_mount cmd env)))
       = Some true
    /\ In (lit "Pipeline: " ++ launch ++ nl)
         (stdout (trace (main GST_VERSION_MINOR store_past_mount cmd env))).
Proof.
  by_cases; intros Hm; try congruence;
    match goal with
    | L : cstring |- _ => exists L; repeat split; cbn; tauto
    end.
Qed.

(** X16: a run that serves writes nothing to standard error and exactly
    three lines to standard output: the banner, the pipeline, and the
    address made of the port and of the mount path. *)
Theorem serving_output (cmd : command_line) (env : environment) :
  result (main GST_VERSION_MINOR store_past_mount cmd env) = Serves ->
  stderr (trace (main GST_VERSION_MINOR store_past_mount cmd env)) = []
  /\ exists g launch,
       parse_options GST_VERSION_MINOR store_past_mount env (uses cmd)
         initial_globals = Parsed g
       /\ argv_1 cmd = Some launch
       /\ stdout (trace (main GST_VERSION_MINOR store_past_mount cmd env))
          = [ lit "Launch RTSP Server -- 11/21/23 brent@mbari.org" ++ nl;
              lit "Pipeline: " ++ launch ++ nl;
              lit "Stream ready at rtsp://127.0.0.1:" ++ port g ++ mount g
              ++ nl ].
Proof.
  by_cases; intros Hr; try discriminate Hr; (split; [reflexivity|]);
    match goal with
    | G : globals, L : cstring |- _ => exists G, L; now repeat split
    end.
Qed.

(** X17: no run of [main] connects a handler to the factory or sets
    do-retransmission on a media: [media_constructed] is never reached. *)
Theorem handler_never_connected (cmd : command_line) (env : environment) :
  existsb toggles_retransmission
    (trace (main GST_VERSION_MINOR store_past_mount cmd env)) = false.
Proof. by_cases; reflexivity. Qed.

End MoreRuns.

Lemma rejected_after_construction_witness :
  result (main 22 unused_slot (with_profiles (lit "XYZ")) serving) = Returns 3
  /\ In gst_rtsp_server_new
       (trace (main 22 unused_slot (with_profiles (lit "XYZ")) serving))
  /\ mount_table
       (trace (main 22 unused_slot (with_profiles (lit "XYZ")) serving)) = [].
Proof.
  assert (result (main 22 unused_slot (with_profiles (lit "XYZ")) serving)
          = Returns 3) as H by reflexivity.
  destruct (rejected_after_construction 22 unused_slot
              (with_profiles (lit "XYZ")) serving (or_introl H))
    as (S & _ & _ & _ & M & _).
  split; [exact H | split; [exact S | exact M]].
Defined.

Lemma attach_failure_witness :
  result (main 22 unused_slot cam1 detached) = Returns 6
  /\ attach_id detached = 0
  /\ length (mount_table (trace (main 22 unused_slot cam1 detached))) = 1%nat
  /\ existsb schedules (trace (main 22 unused_slot cam1 detached)) = false.
Proof.
  assert (result (main 22 unused_slot cam1 detached) = Returns 6) as H
    by reflexivity.
  destruct (attach_failure 22 unused_slot cam1 detached H)
    as (A & M & _ & _ & S & _).
  split; [exact H | split; [exact A | split; [exact M | exact S]]].
Defined.

Lemma mounted_factory_witness :
  mount_table (trace (main 22 unused_slot cam1 serving)) <> []
  /\ exists launch,
       argv_1 cam1 = Some launch
       /\ pipelineDescription
            (factory_config (trace (main 22 unused_slot cam1 serving)))
          = Some launch
       /\ shared (factory_config (trace (main 22 unused_slot cam1 serving)))
          = Some true
       /\ In (lit "Pipeline: " ++ launch ++ nl)
            (stdout (trace (main 22 unused_slot cam1 serving))).
Proof.
  assert (mount_table (trace (main 22 unused_slot cam1 serving)) <> []) as H
    by discriminate.
  split; [exact H|].
  exact (mounted_factory 22 unused_slot cam1 serving H).
Defined.

Lemma serving_output_witness :
  result (main 22 unused_slot cam1 serving) = Serves
  /\ stderr (trace (main 22 unused_slot cam1 serving)) = [].
Proof.
  assert (result (main 22 unused_slot cam1 serving) = Serves) as H
    by reflexivity.
  split; [exact H|].
  exact (proj1 (serving_output 22 unused_slot cam1 serving H)).
Defined.

(** ** The option table at work *)

Lemma cstring_eqb_eq (a b : cstring) : cstring_eqb a b = true <-> a = b.
Proof.
  revert b. induction a as [|x a IH]; intros [|y b]; cbn; try easy.
  rewrite andb_true_iff, Ascii.eqb_eq, IH. split.
  - now intros [-> ->].
  - now intros [= -> ->].
Qed.

Section Options.

Variable GST_VERSION_MINOR : Z.
Variable store_past_mount : cstring -> globals -> globals.

(** Nothing of the program lies behind [mount]. *)
Hypothesis nothing_behind_mount : forall v g, store_past_mount v g = g.

(** A name that begins with "gst-" is none of the table's. *)
Lemma gst_prefixed_names (name : cstring) :
  gst_prefixed name = true ->
  cstring_eqb name (lit "port") = false
  /\ cstring_eqb name (lit "endpoint") = false
  /\ cstring_eqb name (lit "rtsp-profiles") = false
  /\ cstring_eqb name (lit "retransmission-time") = false
  /\ cstring_eqb name (lit "disable-rtcp") = false
  /\ cstring_eqb name (lit "help") = false
  /\ cstring_eqb name (lit "help-all") = false
  /\ cstring_eqb name (lit "help-gst") = false.
Proof.
  unfold gst_prefixed. intros H. apply cstring_eqb_eq in H.
  destruct name as [|a [|b [|c [|d name]]]]; try discriminate H.
  cbn in H. inversion H. now repeat split.
Qed.

(** What a use that names no entry of the table comes to. *)
Lemma parse_option_elsewhere (env : environment) (u : option_use)
    (g g' : globals) :
  asks_help u = false ->
  find (names u) (entries GST_VERSION_MINOR) = None ->
  parse_option GST_VERSION_MINOR store_past_mount env u g = Parsed g' ->
  g' = g
  /\ exists name value, u = long_option name value /\ gst_prefixed name = true.
Proof.
  intros Hh Hf. unfold parse_option. rewrite Hh, Hf.
  destruct u as [name value|c value]; [|discriminate].
  destruct (gst_prefixed name) eqn:G; [|discriminate].
  destruct (gst_option env name value); try discriminate.
  intros [= <-]. split; [reflexivity|]. now exists name, value.
Qed.

Lemma parse_option_effect (env : environment) (u : option_use)
    (g g' : globals) :
  parse_option GST_VERSION_MINOR store_past_mount env u g = Parsed g' ->
  Some (port g')
  = (if uses_option (lit "port") "p" u then value_of u else Some (port g))
  /\ profiles g'
     = (if uses_option (lit "rtsp-profiles") "r" u
        then value_of u else profiles g)
  /\ retransmitTime g'
     = (if uses_option (lit "retransmission-time") "t" u
        then value_of u else retransmitTime g)
  /\ mount g' = mount g.
Proof.
  destruct (asks_help u) eqn:Hh;
    [unfold parse_option; rewrite Hh; discriminate|].
  destruct (find (names u) (entries GST_VERSION_MINOR))
    as [e|] eqn:Hf.
  - revert Hf. unfold parse_option, entries. rewrite Hh. cbn [find app].
    destruct u as [n v | c v];
      cbn [names long_name short_name value_of uses_option arg].
    + destruct (cstring_eqb n (lit "port")) eqn:E1.
      { apply cstring_eqb_eq in E1. subst n. intros _.
        destruct v; [|discriminate]. intros [= <-]. now repeat split. }
      destruct (cstring_eqb n (lit "endpoint")) eqn:E2.
      { apply cstring_eqb_eq in E2. subst n. intros _.
        destruct v; [|discriminate].
        intros [= <-]. cbn [store_string]. rewrite nothing_behind_mount.
        now repeat split. }
      destruct (cstring_eqb n (lit "rtsp-profiles")) eqn:E3.
      { apply cstring_eqb_eq in E3. subst n. intros _.
        destruct v; [|discriminate]. intros [= <-]. now repeat split. }
      destruct (cstring_eqb n (lit "retransmission-time")) eqn:E4.
      { apply cstring_eqb_eq in E4. subst n. intros _.
        destruct v; [|discriminate]. intros [= <-]. now repeat split. }
      destruct (20 <=? GST_VERSION_MINOR); cbn [find names long_name arg];
        [|discriminate].
      destruct (cstring_eqb n (lit "disable-rtcp")); [|discriminate].
      intros _. destruct v; [discriminate|]. intros [= <-].
      now repeat split.
    + change (negb (is_nul "p")) with true.
      change (negb (is_nul "e")) with true.
      change (negb (is_nul "r")) with true.
      change (negb (is_nul "t")) with true.
      cbn [andb].
      destruct (Ascii.eqb c "p") eqn:E1.
      { apply Ascii.eqb_eq in E1. subst c. intros _.
        destruct v; [|discriminate]. intros [= <-]. now repeat split. }
      destruct (Ascii.eqb c "e") eqn:E2.
      { apply Ascii.eqb_eq in E2. subst c. intros _.
        destruct v; [|discriminate].
        intros [= <-]. cbn [store_string]. rewrite nothing_behind_mount.
        now repeat split. }
      destruct (Ascii.eqb c "r") eqn:E3.
      { apply Ascii.eqb_eq in E3. subst c. intros _.
        destruct v; [|discriminate]. intros [= <-]. now repeat split. }
      destruct (Ascii.eqb c "t") eqn:E4.
      { apply Ascii.eqb_eq in E4. subst c. intros _.
        destruct v; [|discriminate]. intros [= <-]. now repeat split. }
      destruct (20 <=? GST_VERSION_MINOR); cbn [find names short_name];
        [|discriminate].
      change (negb (is_nul NUL)) with false. cbn [andb]. discriminate.
  - intros H.
    destruct (parse_option_elsewhere env u g g' Hh Hf H)
      as (-> & name & value & -> & G).
    cbn [uses_option].
    destruct (gst_prefixed_names name G) as (-> & _ & -> & -> & _).
    now repeat split.
Qed.

Lemma parse_options_effect (env : environment) (us : list option_use) :
  forall g g',
    parse_options GST_VERSION_MINOR store_past_mount env us g = Parsed g' ->
    Some (port g') = last_value (lit "port") "p" us (Some (port g))
    /\ profiles g' = last_value (lit "rtsp-profiles") "r" us (profiles g)
    /\ retransmitTime g'
       = last_value (lit "retransmission-time") "t" us (retransmitTime g)
    /\ mount g' = mount g.
Proof.
  induction us as [|u us IH]; intros g g'; cbn [parse_options].
  - intros [= <-]. now repeat split.
  - destruct (parse_option _ _ env u g) as [g1| |] eqn:E; try discriminate.
    intros H. destruct (IH _ _ H) as (P & R & T & M).
    destruct (parse_option_effect env u g g1 E) as (P1 & R1 & T1 & M1).
    unfold last_value in *. cbn [fold_left].
    rewrite <- P1, <- R1, <- T1. repeat split; congruence.
Qed.

Lemma parse_option_rtcp (env : environment) (u : option_use)
    (g g' : globals) :
  parse_option GST_VERSION_MINOR store_past_mount env u g = Parsed g' ->
  disable_rtcp g' = disable_rtcp g || disables_rtcp u.
Proof.
  destruct (asks_help u) eqn:Hh;
    [unfold parse_option; rewrite Hh; discriminate|].
  destruct (find (names u) (entries GST_VERSION_MINOR))
    as [e|] eqn:Hf.
  - revert Hf. unfold parse_option, entries. rewrite Hh. cbn [find app].
    destruct u as [n v | c v];
      cbn [names long_name short_name value_of disables_rtcp arg].
    + destruct (cstring_eqb n (lit "port")) eqn:E1.
      { apply cstring_eqb_eq in E1. subst n. intros _.
        destruct v; [|discriminate].
        intros [= <-]. cbn. now rewrite orb_false_r. }
      destruct (cstring_eqb n (lit "endpoint")) eqn:E2.
      { apply cstring_eqb_eq in E2. subst n. intros _.
        destruct v; [|discriminate].
        intros [= <-]. cbn [store_string]. rewrite nothing_behind_mount.
        cbn. now rewrite orb_false_r. }
      destruct (cstring_eqb n (lit "rtsp-profiles")) eqn:E3.
      { apply cstring_eqb_eq in E3. subst n. intros _.
        destruct v; [|discriminate].
        intros [= <-]. cbn. now rewrite orb_false_r. }
      destruct (cstring_eqb n (lit "retransmission-time")) eqn:E4.
      { apply cstring_eqb_eq in E4. subst n. intros _.
        destruct v; [|discriminate].
        intros [= <-]. cbn. now rewrite orb_false_r. }
      destruct (20 <=? GST_VERSION_MINOR); cbn [find names long_name arg];
        [|discriminate].
      destruct (cstring_eqb n (lit "disable-rtcp")); [|discriminate].
      intros _. destruct v; [discriminate|]. intros [= <-]. cbn.
      now rewrite orb_true_r.
    + change (negb (is_nul "p")) with true.
      change (negb (is_nul "e")) with true.
      change (negb (is_nul "r")) with true.
      change (negb (is_nul "t")) with true.
      cbn [andb]. rewrite orb_false_r.
      destruct (Ascii.eqb c "p");
        [intros _; destruct v; [|discriminate]; now intros [= <-]|].
      destruct (Ascii.eqb c "e");
        [intros _; destruct v; [|discriminate]; intros [= <-];
         cbn [store_string]; now rewrite nothing_behind_mount|].
      destruct (Ascii.eqb c "r");
        [intros _; destruct v; [|discriminate]; now intros [= <-]|].
      destruct (Ascii.eqb c "t");
        [intros _; destruct v; [|discriminate]; now intros [= <-]|].
      destruct (20 <=? GST_VERSION_MINOR); cbn [find names short_name];
        [|discriminate].
      change (negb (is_nul NUL)) with false. cbn [andb]. discriminate.
  - intros H.
    destruct (parse_option_elsewhere env u g g' Hh Hf H)
      as (-> & name & value & -> & G).
    cbn [disables_rtcp].
    destruct (gst_prefixed_names name G) as (_ & _ & _ & _ & -> & _).
    now rewrite orb_false_r.
Qed.

Lemma parse_options_rtcp (env : environment) (us : list option_use) :
  forall g g',
    parse_options GST_VERSION_MINOR store_past_mount env us g = Parsed g' ->
    disable_rtcp g' = disable_rtcp g || existsb disables_rtcp us.
Proof.
  induction us as [|u us IH]; intros g g'; cbn [parse_options existsb].
  - intros [= <-]. now rewrite orb_false_r.
  - destruct (parse_option _ _ env u g) as [g1| |] eqn:E; try discriminate.
    intros H. rewrite (IH _ _ H), (parse_option_rtcp env u g g1 E).
    now rewrite orb_assoc.
Qed.

(** X20: with nothing of the program behind [mount], a factory that gets
    mounted has RTCP enabled exactly when [--disable-rtcp] is not used,
    in a program compiled against GStreamer 1.20 or later; compiled
    against an earlier one, the program leaves the factory's RTCP setting
    alone. *)
Theorem rtcp_follows_option (cmd : command_line) (env : environment) :
  mount_table (trace (main GST_VERSION_MINOR store_past_mount cmd env)) <> [] ->
  rtcpEnabled
    (factory_config (trace (main GST_VERSION_MINOR store_past_mount cmd env)))
  = (if 20 <=? GST_VERSION_MINOR
     then Some (negb (existsb disables_rtcp (uses cmd)))
     else None).
Proof.
  open_main.
  destruct (parse_options GST_VERSION_MINOR store_past_mount env (uses cmd)
              initial_globals) as [g| |] eqn:H; try (cbn; congruence).
  apply parse_options_rtcp in H. cbn [initial_globals disable_rtcp orb] in H.
  repeat decide_next; cbn; intros Hm; try congruence.
Qed.

(** X18: with nothing of the program behind [mount], the variables after
    option parsing hold, each, the value of the last use of its option
    under its long or its short name, and its initial value when the
    option is not used: "8554" for the port, NULL for the profiles and
    the retransmission time.  [mount] is "/video" whatever is used, and
    the server is created with that port as its service. *)
Theorem last_use_wins (cmd : command_line) (env : environment) (g : globals) :
  parse_options GST_VERSION_MINOR store_past_mount env (uses cmd)
    initial_globals
  = Parsed g ->
  Some (port g)
  = last_value (lit "port") "p" (uses cmd) (Some DEFAULT_RTSP_PORT)
  /\ profiles g = last_value (lit "rtsp-profiles") "r" (uses cmd) None
  /\ retransmitTime g
     = last_value (lit "retransmission-time") "t" (uses cmd) None
  /\ mount g = lit "/video"
  /\ (argv_1 cmd <> None ->
      In (g_object_set_service (port g))
        (trace (main GST_VERSION_MINOR store_past_mount cmd env))).
Proof.
  intros H.
  destruct (parse_options_effect _ _ _ _ H) as (P & R & T & M).
  repeat split; try assumption.
  intros Hargv. open_main. rewrite H. cbv beta iota.
  destruct (argv_1 cmd) as [launch|]; [|congruence].
  repeat decide_next; cbn; tauto.
Qed.

Lemma endpoint_use (env : environment) (u : option_use) (g : globals) :
  uses_option (lit "endpoint") "e" u
  && match value_of u with Some _ => true | None => false end = true ->
  parse_option GST_VERSION_MINOR store_past_mount env u g = Parsed g.
Proof.
  intros H. apply andb_prop in H as [Hu Hv].
  destruct u as [n [v|] | c [v|]]; try discriminate Hv;
    cbn [uses_option] in Hu.
  - apply cstring_eqb_eq in Hu. subst n. unfold parse_option, entries.
    cbn. now rewrite nothing_behind_mount.
  - apply Ascii.eqb_eq in Hu. subst c. unfold parse_option, entries.
    cbn. now rewrite nothing_behind_mount.
Qed.

Lemma parse_options_without_endpoint (env : environment)
    (us : list option_use) :
  forall g,
    parse_options GST_VERSION_MINOR store_past_mount env
      (filter
         (fun u =>
            negb (uses_option (lit "endpoint") "e" u
                  && match value_of u with Some _ => true | None => false end))
         us) g
    = parse_options GST_VERSION_MINOR store_past_mount env us g.
Proof.
  induction us as [|u us IH]; intros g; [reflexivity|].
  cbn [filter parse_options].
  destruct (uses_option (lit "endpoint") "e" u
            && match value_of u with Some _ => true | None => false end)
    eqn:E; cbn [negb].
  - rewrite (endpoint_use env u g E). apply IH.
  - cbn [parse_options].
    destruct (parse_option _ _ env u g); [apply IH | reflexivity..].
Qed.

(** X19: with nothing of the program behind [mount], the end point option
    does nothing at all: the run on a command line is, call for call, the
    run on that command line without its uses of the option. *)
Theorem endpoint_has_no_effect (cmd : command_line) (env : environment) :
  main GST_VERSION_MINOR store_past_mount cmd env
  = main GST_VERSION_MINOR store_past_mount (without_endpoint cmd) env.
Proof.
  unfold main, g_option_context_parse.
  change (uses (without_endpoint cmd))
    with (filter
            (fun u =>
               negb (uses_option (lit "endpoint") "e" u
                     && match value_of u with
                        | Some _ => true
                        | None => false
                        end))
            (uses cmd)).
  rewrite parse_options_without_endpoint. reflexivity.
Qed.

End Options.

Lemma last_use_wins_witness :
  (forall v g, unused_slot v g = g)
  /\ parse_options 22 unused_slot serving
       (uses {| uses := [ long_option (lit "port") (Some (lit "9000"));
                          short_option "p" (Some (lit "9001")) ];
                rest := [pipeline] |}) initial_globals
     = Parsed (set_port (lit "9001") initial_globals)
  /\ last_value (lit "port") "p"
       [ long_option (lit "port") (Some (lit "9000"));
         short_option "p" (Some (lit "9001")) ] (Some DEFAULT_RTSP_PORT)
     = Some (lit "9001")
  /\ In (g_object_set_service (lit "9001"))
       (trace (main 22 unused_slot
                 {| uses := [ long_option (lit "port") (Some (lit "9000"));
                              short_option "p" (Some (lit "9001")) ];
                    rest := [pipeline] |} serving)).
Proof.
  assert (forall v g, unused_slot v g = g) as H by reflexivity.
  assert (parse_options 22 unused_slot serving
            (uses {| uses := [ long_option (lit "port") (Some (lit "9000"));
                               short_option "p" (Some (lit "9001")) ];
                     rest := [pipeline] |}) initial_globals
          = Parsed (set_port (lit "9001") initial_globals)) as P
    by reflexivity.
  destruct (last_use_wins 22 unused_slot H _ serving _ P)
    as (L & _ & _ & _ & S).
  split; [exact H | split; [exact P | split; [now symmetry|]]].
  apply S. discriminate.
Defined.

Lemma endpoint_has_no_effect_witness :
  (forall v g, unused_slot v g = g)
  /\ main 22 unused_slot cam1 serving
     = main 22 unused_slot (without_endpoint cam1) serving.
Proof.
  assert (forall v g, unused_slot v g = g) as H by reflexivity.
  split; [exact H|].
  exact (endpoint_has_no_effect 22 unused_slot H cam1 serving).
Defined.

Lemma rtcp_follows_option_witness :
  (forall v g, unused_slot v g = g)
  /\ mount_table (trace (main 22 unused_slot without_rtcp serving)) <> []
  /\ rtcpEnabled
       (factory_config (trace (main 22 unused_slot without_rtcp serving)))
     = Some false.
Proof.
  assert (forall v g, unused_slot v g = g) as H by reflexivity.
  assert (mount_table (trace (main 22 unused_slot without_rtcp serving))
          <> []) as M by discriminate.
  split; [exact H | split; [exact M|]].
  exact (rtcp_follows_option 22 unused_slot H without_rtcp serving M).
Defined.

(** ** Options that end the process, and options that do not parse *)

Lemma find_none (V : Z) (u : option_use) :
  string_option u = false -> rtcp_flag V u = false ->
  find (names u) (entries V) = None.
Proof.
  unfold string_option, rtcp_flag, entries.
  destruct u as [n v | c v]; cbn [existsb disables_rtcp find app names
                                   long_name short_name].
  - intros H. rewrite !orb_false_iff in H.
    destruct H as (-> & -> & -> & -> & _).
    destruct (20 <=? V); cbn [andb find names long_name]; [|reflexivity].
    now intros ->.
  - intros H _. rewrite !orb_false_iff in H.
    destruct H as (-> & -> & -> & -> & _). rewrite !andb_false_r.
    destruct (20 <=? V); reflexivity.
Qed.

Lemma find_string (V : Z) (u : option_use) :
  string_option u = true ->
  exists e p,
    find (names u) (entries V) = Some e /\ arg e = G_OPTION_ARG_STRING p.
Proof.
  unfold string_option, entries.
  destruct u as [n v | c v]; cbn [existsb find app names long_name short_name].
  - destruct (cstring_eqb n (lit "port")); [intros _; do 2 eexists; split; reflexivity|].
    destruct (cstring_eqb n (lit "endpoint")); [intros _; do 2 eexists; split; reflexivity|].
    destruct (cstring_eqb n (lit "rtsp-profiles")); [intros _; do 2 eexists; split; reflexivity|].
    destruct (cstring_eqb n (lit "retransmission-time")); [intros _; do 2 eexists; split; reflexivity|].
    discriminate.
  - change (negb (is_nul "p")) with true. change (negb (is_nul "e")) with true.
    change (negb (is_nul "r")) with true. change (negb (is_nul "t")) with true.
    cbn [andb].
    destruct (Ascii.eqb c "p"); [intros _; do 2 eexists; split; reflexivity|].
    destruct (Ascii.eqb c "e"); [intros _; do 2 eexists; split; reflexivity|].
    destruct (Ascii.eqb c "r"); [intros _; do 2 eexists; split; reflexivity|].
    destruct (Ascii.eqb c "t"); [intros _; do 2 eexists; split; reflexivity|].
    discriminate.
Qed.






(** A use that does not parse fails, whatever the variables hold. *)
Lemma parse_option_unparseable (V : Z) (P : cstring -> globals -> globals)
    (env : environment) (u : option_use) (g : globals) :
  unparseable V env u = true ->
  parse_option V P env u g = Failed.
Proof.
  unfold unparseable. intros H. apply andb_prop in H as [Hh H].
  apply negb_true_iff in Hh. unfold parse_option. rewrite Hh.
  destruct (string_option u) eqn:S.
  - destruct (find_string V u S) as (e & p & -> & ->).
    cbn [andb negb orb] in H. rewrite orb_false_r in H.
    unfold has_value in H. destruct (value_of u); [discriminate H|].
    reflexivity.
  - cbn [andb negb orb] in H. apply andb_prop in H as [R H].
    apply negb_true_iff in R. rewrite (find_none V u S R).
    destruct u as [n w | c w]; [|reflexivity]. cbn [group_says] in H.
    destruct (gst_prefixed n); [|reflexivity].
    destruct (gst_option env n w); [discriminate H | reflexivity
                                    | discriminate H].
Qed.

(** The uses that end the process are the ones [ends_process] names. *)
Lemma parse_option_exits (V : Z) (P : cstring -> globals -> globals)
    (env : environment) (u : option_use) (g : globals) :
  parse_option V P env u g = Exited <-> ends_process env u = true.
Proof.
  unfold parse_option, ends_process.
  destruct (asks_help u) eqn:Hh; [now split|]. cbn [orb].
  destruct (find (names u) (entries V)) as [e|] eqn:Hf.
  - split.
    + destruct (arg e), (value_of u); discriminate.
    + intros H. exfalso.
      destruct u as [n w | c w]; [|discriminate H].
      apply andb_prop in H as [G _].
      destruct (gst_prefixed_names n G) as (E1 & E2 & E3 & E4 & E5 & _).
      revert Hf. unfold entries. cbn [find app names long_name].
      rewrite E1, E2, E3, E4.
      destruct (20 <=? V); cbn [find names long_name]; [|discriminate].
      rewrite E5. discriminate.
  - destruct u as [n w | c w]; [|now split].
    destruct (gst_prefixed n); [|now split]. cbn [andb].
    destruct (gst_option env n w); now split.
Qed.

Lemma parse_options_exits (V : Z) (P : cstring -> globals -> globals)
    (env : environment) (us : list option_use) :
  forall g,
    parse_options V P env us g = Exited ->
    existsb (ends_process env) us = true.
Proof.
  induction us as [|u us IH]; intros g; cbn [parse_options existsb];
    [discriminate|].
  destruct (parse_option V P env u g) as [g'| |] eqn:E.
  - intros H. rewrite (IH _ H). apply orb_true_r.
  - discriminate.
  - intros _. apply parse_option_exits in E. now rewrite E.
Qed.

Lemma parse_options_app (V : Z) (P : cstring -> globals -> globals)
    (env : environment) (us vs : list option_use) :
  forall g,
    parse_options V P env (us ++ vs) g
    = match parse_options V P env us g with
      | Parsed g' => parse_options V P env vs g'
      | Failed => Failed
      | Exited => Exited
      end.
Proof.
  induction us as [|u us IH]; intros g; [reflexivity|].
  cbn [app parse_options].
  destruct (parse_option V P env u g); [apply IH | reflexivity..].
Qed.



(** ** Without the pipeline *)

(** C9: without the pipeline argument no run of [main] makes any of the
    calls that create the server, its mount table or the factory, and
    nothing is mounted.  [main] then returns -1: for a parse error from
    the branch of the parse error, else from the test of [argv[1]].  The
    one other end such a run can have is not a return of [main]: a help
    option or an option of GStreamer's that prints and exits ends the
    process with 0 inside [g_option_context_parse], before [argv[1]] is
    looked at; so a command line that holds no such option gives -1. *)
Theorem missing_pipeline (V : Z) (P : cstring -> globals -> globals)
    (cmd : command_line) (env : environment) :
  argv_1 cmd = None ->
  (existsb (ends_process env) (uses cmd) = false ->
   result (main V P cmd env) = Returns (-1))
  /\ (result (main V P cmd env) = Returns (-1)
      \/ result (main V P cmd env) = Exits 0
         /\ existsb (ends_process env) (uses cmd) = true)
  /\ existsb constructs (trace (main V P cmd env)) = false
  /\ mount_table (trace (main V P cmd env)) = [].
Proof.
  intros H. open_main. rewrite H.
  destruct (parse_options V P env (uses cmd) initial_globals) as [g| |] eqn:E;
    cbn.
  - repeat split; auto.
  - repeat split; auto.
  - apply parse_options_exits in E. rewrite E.
    repeat split; auto. discriminate.
Qed.

Lemma missing_pipeline_witness :
  argv_1 no_pipeline = None
  /\ existsb (ends_process serving) (uses no_pipeline) = false
  /\ result (main 22 unused_slot no_pipeline serving) = Returns (-1)
  /\ existsb constructs (trace (main 22 unused_slot no_pipeline serving))
     = false
  /\ argv_1 help_only = None
  /\ result (main 22 unused_slot help_only serving) = Exits 0
  /\ existsb constructs (trace (main 22 unused_slot help_only serving))
     = false.
Proof.
  assert (argv_1 no_pipeline = None) as H by reflexivity.
  assert (existsb (ends_process serving) (uses no_pipeline) = false) as E
    by reflexivity.
  assert (argv_1 help_only = None) as H' by reflexivity.
  destruct (missing_pipeline 22 unused_slot no_pipeline serving H)
    as (R & _ & C & _).
  destruct (missing_pipeline 22 unused_slot help_only serving H')
    as (_ & [R' | [R' _]] & C' & _); [discriminate R'|].
  repeat split; auto.
Defined.

(** ** An option the build does not have *)

(** X21: a program compiled against a GStreamer before 1.20 does not know
    [--disable-rtcp].  On a command line that uses it, behind options of
    which none ends the process, option parsing fails: [main] returns -1
    with one message on standard error and without creating the
    server. *)
Theorem rtcp_option_unknown (V : Z) (P : cstring -> globals -> globals)
    (cmd : command_line) (env : environment) (v : option cstring)
    (before after : list option_use) :
  V < 20 ->
  uses cmd = before ++ long_option (lit "disable-rtcp") v :: after ->
  existsb (ends_process env) before = false ->
  result (main V P cmd env) = Returns (-1)
  /\ existsb constructs (trace (main V P cmd env)) = false
  /\ length (stderr (trace (main V P cmd env))) = 1%nat
  /\ In (ev_g_option_context_parse false) (trace (main V P cmd env)).
Proof.
  intros HV Huses Hbefore.
  assert (parse_options V P env (uses cmd) initial_globals = Failed) as H.
  { rewrite Huses, parse_options_app.
    destruct (parse_options V P env before initial_globals) as [g| |] eqn:E.
    - cbn [parse_options].
      rewrite (parse_option_unparseable V P env _ g); [reflexivity|].
      unfold unparseable, rtcp_flag.
      replace (20 <=? V) with false by (symmetry; apply Z.leb_gt; lia).
      destruct v; reflexivity.
    - reflexivity.
    - apply parse_options_exits in E. congruence. }
  open_main. rewrite H. cbn. repeat split; tauto.
Qed.

Lemma rtcp_option_unknown_witness :
  18 < 20
  /\ uses without_rtcp = [] ++ long_option (lit "disable-rtcp") None :: []
  /\ result (main 18 unused_slot without_rtcp serving) = Returns (-1)
  /\ result (main 22 unused_slot without_rtcp serving) = Serves.
Proof.
  assert (18 < 20) as H by lia.
  assert (uses without_rtcp
          = [] ++ long_option (lit "disable-rtcp") None :: []) as U
    by reflexivity.
  split; [exact H | split; [exact U | split; [|reflexivity]]].
  exact (proj1 (rtcp_option_unknown 18 unused_slot without_rtcp serving None
                  [] [] H U eq_refl)).
Defined.

(** ** The valid profile specs *)







Lemma spells_not_nil (w : cstring) (t : token) : spells w t -> w <> [].
Proof. intros H ->. destruct t as [[|] [|]]; discriminate H. Qed.




(** ** The valid retransmission times *)













(** ** The exit codes *)




(** ** The handler and the callback *)

Lemma nth_error_skipn_0 {A} (l : list A) (k : nat) :
  nth_error l k = hd_error (skipn k l).
Proof.
  revert l. induction k as [|k IH]; intros [|a l]; try reflexivity.
  apply IH.
Qed.

(** The passes of the loop over the streams from index [k] on. *)
Lemma report_streams_passes (media : GstRTSPMedia) (todo : nat) :
  forall (k : nat) (log : list event),
    (k + todo <= length media)%nat ->
    Z.of_nat (length media) < 2 ^ 32 ->
    exists calls,
      report_streams media (Z.of_nat k) todo log = (calls ++ log, Go tt)
      /\ stderr (rev calls)
         = stream_lines (Z.of_nat k) (firstn todo (skipn k media))
      /\ length (filter gets_stream calls) = todo
      /\ length (filter asks_sender calls) = todo
      /\ length (filter asks_time calls) = todo
      /\ length calls = (4 * todo)%nat
      /\ existsb toggles_retransmission calls = false.
Proof.
  induction todo as [|todo IH]; intros k log Hk Hn.
  - exists []. now repeat split.
  - cbn [report_streams].
    unfold bind at 1, gst_rtsp_media_get_stream at 1.
    unfold bind at 1, gst_rtsp_stream_is_sender at 1.
    unfold bind at 1, gst_rtsp_stream_get_retransmission_time at 1.
    unfold bind at 1, call at 1.
    rewrite Nat2Z.id, nth_error_skipn_0.
    destruct (skipn k media) as [|st streams] eqn:E.
    { exfalso. assert (length (skipn k media) = 0%nat) as L by now rewrite E.
      rewrite length_skipn in L. lia. }
    cbn [hd_error firstn].
    assert ((Z.of_nat k + 1) mod 2 ^ 32 = Z.of_nat (S k)) as ->
      by (rewrite Z.mod_small; lia).
    assert (skipn (S k) media = streams) as E'.
    { replace (S k) with (1 + k)%nat by lia.
      now rewrite <- skipn_skipn, E. }
    match goal with
    | |- context [report_streams media _ todo ?l] =>
        destruct (IH (S k) l ltac:(lia) Hn)
          as (calls & -> & L & G & S & T & N & R)
    end.
    exists (calls
            ++ [ g_printerr
                   (format_d (Z.of_nat k) ++ lit ":"
                    ++ (if is_sender st then lit "Sender" else lit "Receiver")
                    ++ lit " retransmission_time = "
                    ++ format_ld (stream_retransmission_time st mod 2 ^ 64)
                    ++ nl);
                 ev_gst_rtsp_stream_get_retransmission_time;
                 ev_gst_rtsp_stream_is_sender;
                 ev_gst_rtsp_media_get_stream (Z.of_nat k) ]).
    split; [now rewrite <- app_assoc|].
    rewrite rev_app_distr, !filter_app, !length_app, existsb_app, G, S, T, N, R.
    cbn [rev app filter gets_stream asks_sender asks_time length existsb
         toggles_retransmission stderr orb].
    repeat split; try lia.
    rewrite L, E'. cbn [stream_lines]. f_equal.
    + unfold stream_line, format_ld, signed.
      now rewrite Z.mod_mod by lia.
    + f_equal. lia.
Qed.

(** X22: [media_constructed] asks the media for the number of its streams
    and then, stream by stream in the order of the indices, gets the
    stream, asks whether it sends and for its retransmission time, and
    writes one line to standard error: the index, the role and the time,
    the time as a signed number, so that a time from 2^63 on is shown
    negative.  Then, whatever the streams are and also when there is
    none, it sets do-retransmission on the media, once and as the last
    thing it does; it makes no other call. *)
Theorem media_constructed_calls (media : GstRTSPMedia) (log : list event) :
  Z.of_nat (length media) < 2 ^ 32 ->
  exists calls,
    media_constructed media log
    = (gst_rtsp_media_set_do_retransmission true
       :: calls ++ ev_gst_rtsp_media_n_streams :: log, Go tt)
    /\ stderr (rev calls) = stream_lines 0 media
    /\ length (filter gets_stream calls) = length media
    /\ length (filter asks_sender calls) = length media
    /\ length (filter asks_time calls) = length media
    /\ length calls = (4 * length media)%nat
    /\ existsb toggles_retransmission calls = false
    /\ (forall stream,
          2 ^ 63 <= stream_retransmission_time stream < 2 ^ 64 ->
          format_ld (stream_retransmission_time stream)
          = decimal (stream_retransmission_time stream - 2 ^ 64))
    /\ (forall stream,
          0 <= stream_retransmission_time stream < 2 ^ 63 ->
          format_ld (stream_retransmission_time stream)
          = decimal (stream_retransmission_time stream)).
Proof.
  intros Hn. unfold media_constructed.
  unfold bind at 1, gst_rtsp_media_n_streams at 1.
  rewrite Z.mod_small, Nat2Z.id by lia.
  destruct (report_streams_passes media (length media) 0
              (ev_gst_rtsp_media_n_streams :: log) ltac:(lia) Hn)
    as (calls & E & L & G & S & T & N & R).
  change (Z.of_nat 0) with 0 in E, L.
  unfold bind, call. rewrite E. exists calls.
  cbn [skipn] in L. rewrite firstn_all in L.
  repeat split; try assumption.
  - intros stream H. unfold format_ld, signed.
    rewrite Z.mod_small by lia.
    replace (_ <? _) with false by (symmetry; apply Z.ltb_ge; lia).
    reflexivity.
  - intros stream H. unfold format_ld, signed.
    rewrite Z.mod_small by lia.
    replace (_ <? _) with true by (symmetry; apply Z.ltb_lt; lia).
    reflexivity.
Qed.

Lemma media_constructed_calls_witness :
  Z.of_nat (length [ {| is_sender := true;
                        stream_retransmission_time := 2 ^ 64 - 1 |} ])
  < 2 ^ 32
  /\ exists calls,
       media_constructed
         [ {| is_sender := true; stream_retransmission_time := 2 ^ 64 - 1 |} ]
         []
       = (gst_rtsp_media_set_do_retransmission true
          :: calls ++ [ev_gst_rtsp_media_n_streams], Go tt)
       /\ stderr (rev calls)
          = [ lit "0:Sender retransmission_time = -1" ++ nl ].
Proof.
  assert (Z.of_nat (length [ {| is_sender := true;
                                stream_retransmission_time := 2 ^ 64 - 1 |} ])
          < 2 ^ 32) as H by (vm_compute; reflexivity).
  split; [exact H|].
  destruct (media_constructed_calls
              [ {| is_sender := true;
                   stream_retransmission_time := 2 ^ 64 - 1 |} ] [] H)
    as (calls & E & L & _).
  exists calls. split; [exact E|]. rewrite L. vm_compute. reflexivity.
Defined.

Lemma dispatch_references (n : nat) :
  forall log,
    exists log',
      dispatch n timeout log = (log', Go true)
      /\ pool_references log' = pool_references log.
Proof.
  induction n as [|n IH]; intros log.
  - now exists log.
  - cbn [dispatch]. unfold bind at 1.
    change (timeout log)
      with (g_object_unref_pool :: gst_rtsp_session_pool_cleanup
            :: gst_rtsp_server_get_session_pool :: log, Go true).
    cbv beta iota.
    destruct (IH (g_object_unref_pool :: gst_rtsp_session_pool_cleanup
                  :: gst_rtsp_server_get_session_pool :: log))
      as (log' & E & C).
    exists log'. split; [exact E|]. rewrite C. cbn. lia.
Qed.

(** X23: [timeout] gives back the reference to the session pool it takes:
    however often the callback is dispatched, the log holds as many
    references to the pool afterwards as before. *)
Theorem timeout_keeps_no_reference (n : nat) (log : list event) :
  exists log',
    dispatch n timeout log = (log', Go true)
    /\ pool_references log' = pool_references log.
Proof. apply dispatch_references. Qed.

(** ** The multiplication in guint64 *)

(** X24: the product [retransMs * GST_MSECOND] is exact for an accepted
    time of up to 18446744073709 milliseconds and wraps around above
    that: what the factory gets is then less than the time that was
    asked for. *)
Theorem retransmission_time_wraps (s : cstring) (v : Z) :
  parse_retransmitTime s = Some v ->
  0 <= retransmission_time v < 2 ^ 64
  /\ (v <= 18446744073709 -> retransmission_time v = v * GST_MSECOND)
  /\ (18446744073709 < v -> retransmission_time v < v * GST_MSECOND).
Proof.
  intros H. apply parse_retransmitTime_range in H.
  unfold retransmission_time, GST_MSECOND, ULLONG_MAX in *.
  split; [|split].
  - apply Z.mod_pos_bound. lia.
  - intros Hv. apply Z.mod_small. lia.
  - intros Hv.
    pose proof (Z.mod_pos_bound (v * 1000000) (2 ^ 64) ltac:(lia)). lia.
Qed.

Lemma retransmission_time_wraps_witness :
  parse_retransmitTime (lit "18446744073710") = Some 18446744073710
  /\ retransmission_time 18446744073710 = 448384
  /\ retransmission_time 18446744073710 < 18446744073710 * GST_MSECOND.
Proof.
  assert (parse_retransmitTime (lit "18446744073710") = Some 18446744073710)
    as H by (vm_compute; reflexivity).
  destruct (retransmission_time_wraps _ _ H) as (_ & _ & W).
  split; [exact H | split; [vm_compute; reflexivity|]].
  apply W. lia.
Defined.

(** ** Nothing is read behind the terminator *)

Lemma deref_terminated (u junk : cstring) (k : nat) :
  (k <= length u)%nat -> deref (u ++ NUL :: junk) k = deref u k.
Proof.
  intros H. unfold deref.
  destruct (Nat.eq_dec k (length u)) as [-> | Hne].
  - rewrite app_nth2, Nat.sub_diag by lia. cbn [nth].
    symmetry. apply nth_overflow. lia.
  - apply app_nth1. lia.
Qed.

Lemma at_offset_terminated (u junk : cstring) (k : nat) :
  (k <= length u)%nat ->
  at_offset (u ++ NUL :: junk) k = at_offset u k ++ NUL :: junk.
Proof.
  intros H. unfold at_offset. rewrite skipn_app.
  replace (k - length u)%nat with O by lia. reflexivity.
Qed.

Lemma strncasecmp_terminated (n : nat) :
  forall u v junk,
    strncasecmp (u ++ NUL :: junk) v n = strncasecmp u v n.
Proof.
  induction n as [|n IH]; intros u v junk; [reflexivity|].
  destruct u as [|c u].
  - reflexivity.
  - cbn [strncasecmp app tl]. change (deref (c :: u ++ NUL :: junk) 0) with c.
    change (deref (c :: u) 0) with c. now rewrite IH.
Qed.

Lemma avp_length (u : cstring) : avp u = true -> (3 <= length u)%nat.
Proof.
  destruct u as [|a [|v [|p u]]]; try discriminate. cbn. lia.
Qed.

Lemma parseProfile_terminated (u junk : cstring) (r : Z) :
  parseProfile (u ++ NUL :: junk) 0 r = parseProfile u 0 r.
Proof.
  unfold parseProfile. rewrite deref_terminated by lia.
  destruct (Ascii.eqb (toupper (deref u 0)) "S") eqn:HS.
  - assert (1 <= length u)%nat as L.
    { destruct u; [discriminate HS | cbn; lia]. }
    rewrite at_offset_terminated, strncasecmp_terminated by exact L.
    rewrite strncasecmp_AVP.
    destruct (avp (at_offset u 1)) eqn:A; [|reflexivity].
    apply avp_length in A. unfold at_offset in A. rewrite length_skipn in A.
    cbn [negb]. now rewrite deref_terminated by lia.
  - change (at_offset (u ++ NUL :: junk) 0) with (u ++ NUL :: junk).
    change (at_offset u 0) with u.
    rewrite strncasecmp_terminated, strncasecmp_AVP.
    destruct (avp u) eqn:A; [|reflexivity].
    apply avp_length in A.
    cbn [negb]. now rewrite deref_terminated by (cbn; lia).
Qed.

Lemma c_string_strlen (u : cstring) : c_string u -> strlen u = length u.
Proof.
  induction 1 as [|c u Hc _ IH]; [reflexivity|]. cbn.
  apply is_nul_false in Hc. now rewrite Hc, IH.
Qed.

Lemma c_string_at_offset (u : cstring) (k : nat) :
  c_string u -> c_string (at_offset u k).
Proof.
  unfold c_string, at_offset. rewrite !Forall_forall. intros H c Hin.
  apply H. rewrite <- (firstn_skipn k u). apply in_or_app. now right.
Qed.

Lemma parseProfile_within (u : cstring) :
  c_string u -> (fst (parseProfile u 0 0) <= length u)%nat.
Proof.
  intros Hu.
  destruct (Z.eq_dec (snd (parseProfile u 0 0)) 0) as [E | E].
  - destruct (parseProfile_unrecognized u E) as [-> | [-> HS]]; [lia|].
    destruct u; [discriminate HS | cbn; lia].
  - destruct (parseProfile_recognized u E) as (w & t & rest & -> & _ & -> & _).
    cbn [fst]. rewrite length_app. lia.
Qed.

Lemma profiles_loop_terminated (fuel : nat) (junk : cstring) :
  forall u mask,
    c_string u ->
    profiles_loop fuel (u ++ NUL :: junk) 0 mask = profiles_loop fuel u 0 mask.
Proof.
  induction fuel as [|fuel IH]; intros u mask Hu; [reflexivity|].
  rewrite !profiles_loop_eq, deref_terminated, parseProfile_terminated by lia.
  destruct (is_nul (deref u 0)); [reflexivity|].
  pose proof (parseProfile_within u Hu) as W.
  destruct (parseProfile u 0 0) as [c p]. cbn [fst] in W.
  destruct (p =? 0); [reflexivity|].
  rewrite deref_terminated by exact W.
  destruct (is_nul (deref u c)) eqn:N; [reflexivity|].
  apply is_nul_false, deref_not_nul in N.
  destruct (isalnum (deref u c)); [reflexivity|].
  rewrite at_offset_terminated by lia.
  apply IH. now apply c_string_at_offset.
Qed.

(** X25: the profile loop reads nothing behind the terminator: whatever
    the memory behind the end of the string holds, the string is rejected
    or accepted as on its own, with the same mask. *)
Theorem profiles_stop_at_terminator (s junk : cstring) :
  c_string s ->
  parse_profiles (s ++ NUL :: junk) = parse_profiles s.
Proof.
  intros Hs. unfold parse_profiles.
  rewrite (profiles_loop_terminated _ junk s 0 Hs).
  apply profiles_loop_enough; rewrite ?length_app; cbn [length]; lia.
Qed.

Lemma profiles_stop_at_terminator_witness :
  c_string (lit "AVP")
  /\ parse_profiles (lit "AVP" ++ NUL :: lit "F+garbage")
     = parse_profiles (lit "AVP").
Proof.
  assert (c_string (lit "AVP")) as H by (repeat constructor; discriminate).
  split; [exact H|].
  exact (profiles_stop_at_terminator _ (lit "F+garbage") H).
Defined.

Lemma count_space_terminated (u junk : cstring) :
  count_space (u ++ NUL :: junk) = count_space u.
Proof.
  induction u as [|c u IH]; [reflexivity|]. cbn. now rewrite IH.
Qed.

Lemma count_space_length (u : cstring) : (count_space u <= length u)%nat.
Proof.
  induction u as [|c u IH]; cbn; [lia|]. destruct (isspace c); lia.
Qed.

Lemma digits_terminated (base : Z) (w junk : cstring) :
  forall acc n,
    digits base (w ++ NUL :: junk) acc n = digits base w acc n.
Proof.
  induction w as [|c w IH]; intros acc n; [reflexivity|]. cbn.
  destruct (digit_value c) as [d|]; [|reflexivity].
  destruct (d <? base); [apply IH | reflexivity].
Qed.

Lemma strlen_length (u : cstring) : (strlen u <= length u)%nat.
Proof.
  induction u as [|c u IH]; cbn; [lia|]. destruct (is_nul c); lia.
Qed.

Lemma not_nul_inside (u : cstring) (k : nat) (x : ascii) :
  Ascii.eqb (deref u k) x = true -> x <> NUL -> (S k <= length u)%nat.
Proof.
  intros E Hx. apply Ascii.eqb_eq in E. apply deref_not_nul. congruence.
Qed.

Lemma strtoull_terminated (u junk : cstring) :
  strtoull (u ++ NUL :: junk) 0 = strtoull u 0.
Proof.
  unfold strtoull. rewrite count_space_terminated.
  pose proof (count_space_length u) as Hsp.
  set (sp := count_space u) in *.
  rewrite (deref_terminated u junk sp Hsp).
  set (negative := Ascii.eqb (deref u sp) "-").
  set (sign := negative || Ascii.eqb (deref u sp) "+").
  set (i := if sign then S sp else sp).
  assert (i <= length u)%nat as Hi.
  { subst i sign negative.
    destruct (Ascii.eqb (deref u sp) "-") eqn:M.
    - now apply (not_nul_inside u sp "-").
    - destruct (Ascii.eqb (deref u sp) "+") eqn:P; cbn [orb]; [|exact Hsp].
      now apply (not_nul_inside u sp "+"). }
  rewrite (deref_terminated u junk i Hi).
  destruct (Ascii.eqb (deref u i) "0") eqn:Z0; cbn [andb].
  - assert (S i <= length u)%nat as Hi1
      by now apply (not_nul_inside u i "0").
    rewrite (deref_terminated u junk (S i) Hi1).
    change (0 =? 0) with true. cbn [orb andb].
    destruct (Ascii.eqb (toupper (deref u (S i))) "X") eqn:X.
    + assert (S (S i) <= length u)%nat as Hi2.
      { apply deref_not_nul. intros E. rewrite E in X. discriminate X. }
      rewrite at_offset_terminated, digits_terminated by exact Hi2.
      reflexivity.
    + rewrite at_offset_terminated, digits_terminated by exact Hi.
      reflexivity.
  - rewrite at_offset_terminated, digits_terminated by exact Hi.
    reflexivity.
Qed.

(** X26: the retransmission time is read up to the terminator and no
    further: whatever the memory behind the end of the string holds, the
    string is rejected or accepted as on its own, with the same value. *)
Theorem retransmitTime_stops_at_terminator (s junk : cstring) :
  parse_retransmitTime (s ++ NUL :: junk) = parse_retransmitTime s.
Proof.
  unfold parse_retransmitTime. rewrite strtoull_terminated.
  pose proof (strlen_bound s _ (strtoull_consumes s)) as B.
  pose proof (strlen_length s) as L.
  destruct (strtoull s 0) as [v e]. cbn [snd] in B.
  now rewrite deref_terminated by lia.
Qed.

